(** * oneloginapi: the cached listing document and its lookup protocol

    A shallow embedding of [oneloginapi/__init__.py]: the [OneLogin] base
    class ([session], [_list], [_filter], [_find], [_reload]) and the
    [APIObject] wrapper ([__init__], [__getattr__], [_find]).

    The two libraries the module drives are modelled as far as the module
    uses them:
    - [lxml]: a document is a tree of elements, each with a tag, an optional
      leading text, element children and an optional tail text, as lxml
      keeps them (attributes, namespaces, comments and processing
      instructions are not represented);
      [Element.find], objectify's child lookup by attribute and the XPath
      engine are defined on that tree;
    - [requests]: a session answers a GET with a response (status code and
      body) or raises; the transport itself is a parameter.

    The calls to the logger have no bearing on results and are left out. *)

From Stdlib Require Import List String Ascii Bool Arith Lia.
Import ListNotations.
Open Scope string_scope.
Open Scope list_scope.

(** ** Exceptions and results *)

Inductive exn : Type :=
| RequestException      (* raised inside requests (connection errors, MissingSchema, ...) *)
| XMLSyntaxError        (* lxml.etree.XMLSyntaxError *)
| XPathEvalError        (* lxml.etree.XPathEvalError *)
| AttributeError        (* missing attribute, also on None *)
| IndexError
| NetworkException      (* declared at the end of the module *)
| LoadError (n : nat)   (* whatever a resource class raises from load *)
| Unmodelled.           (* library behaviour outside the modelled fragment *)

Inductive Res (A : Type) : Type :=
| Ok (a : A)
| Raise (e : exn).
Arguments Ok {A} a.
Arguments Raise {A} e.

(** ** lxml: elements *)

Module Lxml.

(** As in lxml, an element carries the text before its first child
    ([text]) and the text that follows its end tag inside its parent
    ([tail]). *)
#[local] Unset Elimination Schemes.
Inductive Element : Type :=
| Node (tag : string) (text : option string) (children : list Element)
       (tail : option string).
#[local] Set Elimination Schemes.

(** An element without tail text. *)
Definition Elem (tag : string) (text : option string)
           (children : list Element) : Element :=
  Node tag text children None.

Definition tag (e : Element) : string :=
  match e with Node t _ _ _ => t end.
Definition text (e : Element) : option string :=
  match e with Node _ x _ _ => x end.
Definition children (e : Element) : list Element :=
  match e with Node _ _ cs _ => cs end.
Definition tail (e : Element) : option string :=
  match e with Node _ _ _ tl => tl end.

Definition opt_list {A} (o : option A) : list A :=
  match o with Some a => [a] | None => [] end.

(** The text nodes among the children of an element, in document order:
    its leading text and the tails of its child elements. *)
Definition text_nodes (e : Element) : list string :=
  opt_list (text e) ++ flat_map (fun c => opt_list (tail c)) (children e).

Definition has_tag (t : string) (e : Element) : bool := String.eqb (tag e) t.

(** Characters of an XML name (ASCII part of NCName). *)
Definition is_letter (c : ascii) : bool :=
  let n := nat_of_ascii c in
  ((65 <=? n)%nat && (n <=? 90)%nat) || ((97 <=? n)%nat && (n <=? 122)%nat).
Definition is_digit (c : ascii) : bool :=
  let n := nat_of_ascii c in (48 <=? n)%nat && (n <=? 57)%nat.
Definition name_start (c : ascii) : bool :=
  is_letter c || Ascii.eqb c "_".
Definition name_char (c : ascii) : bool :=
  name_start c || is_digit c || Ascii.eqb c "-" || Ascii.eqb c ".".

Fixpoint all_chars (p : ascii -> bool) (s : string) : bool :=
  match s with
  | EmptyString => true
  | String c s' => p c && all_chars p s'
  end.

Definition is_name (s : string) : bool :=
  match s with
  | EmptyString => false
  | String c s' => name_start c && all_chars name_char s'
  end.

(** [el.find(path)] for a path that is a plain element name: the first
    child with that tag, or None.  Other ElementPath expressions are
    outside the model. *)
Definition first_child (t : string) (e : Element) : option Element :=
  List.find (has_tag t) (children e).

Definition find (path : string) (e : Element) : Res (option Element) :=
  if is_name path then Ok (first_child path e) else Raise Unmodelled.

(** The names Python finds on an objectify element before objectify's
    child lookup is asked: the properties and methods of lxml's element
    classes.  Names with a leading underscore are counted with them. *)
Definition element_attributes : list string :=
  ["addattr"; "addnext"; "addprevious"; "append"; "attrib"; "base"; "clear";
   "countchildren"; "cssselect"; "descendantpaths"; "extend"; "find";
   "findall"; "findtext"; "get"; "getchildren"; "getiterator"; "getnext";
   "getparent"; "getprevious"; "getroottree"; "index"; "insert"; "items";
   "iter"; "iterancestors"; "iterchildren"; "iterdescendants"; "iterfind";
   "itersiblings"; "itertext"; "keys"; "makeelement"; "nsmap"; "prefix";
   "pyval"; "remove"; "replace"; "set"; "sourceline"; "strlen"; "tag";
   "tail"; "text"; "values"; "xpath"].

Definition leading_underscore (s : string) : bool :=
  match s with
  | String c _ => Ascii.eqb c "_"
  | EmptyString => false
  end.

(** The names for which [el.name] is a child lookup. *)
Definition is_child_name (name : string) : bool :=
  is_name name && negb (leading_underscore name)
  && negb (existsb (String.eqb name) element_attributes).

(** objectify: for a child name, [el.name] is the first child with that tag
    and raises AttributeError when there is none.  For the other names
    Python returns an attribute of the element class, of another type;
    they are outside the model. *)
Definition objectify_getattr (e : Element) (name : string) : Res Element :=
  if is_child_name name then
    match first_child name e with
    | Some c => Ok c
    | None => Raise AttributeError
    end
  else Raise Unmodelled.

(** objectify: iterating over an element yields the element and its
    siblings with the same tag, in document order.  For the first child
    with tag [t] of [parent] these are all children of [parent] tagged
    [t]. *)
Definition siblings (parent : Element) (t : string) : list Element :=
  filter (has_tag t) (children parent).

(** *** Nodes in document order

    A node of a document is identified by the child indexes leading to it
    from the root element. *)
Definition path := list nat.

Fixpoint get (e : Element) (p : path) : option Element :=
  match p with
  | [] => Some e
  | i :: p' =>
      match nth_error (children e) i with
      | Some c => get c p'
      | None => None
      end
  end.

Definition node : Type := path * Element.

Definition under (i : nat) (n : node) : node := (i :: fst n, snd n).

Fixpoint nodes (e : Element) : list node :=
  match e with
  | Node _ _ cs _ =>
      ([], e) ::
      (fix go (i : nat) (l : list Element) : list node :=
         match l with
         | [] => []
         | c :: l' => map (under i) (nodes c) ++ go (S i) l'
         end) 0 cs
  end.

Fixpoint nodes_from (i : nat) (l : list Element) : list node :=
  match l with
  | [] => []
  | c :: l' => map (under i) (nodes c) ++ nodes_from (S i) l'
  end.

Fixpoint descendants (e : Element) : list Element :=
  match e with
  | Node _ _ cs _ => e :: flat_map descendants cs
  end.

(** *** XPath

    [el.xpath(query)] is modelled on the fragment of XPath 1.0 that the
    query template of [_filter] reaches for name-like arguments: an
    abbreviated absolute path [//name] followed by steps [/name] and [/..],
    a name step carrying predicates of the form [[text()=literal]].  The
    lexer follows the XPath token rules for the characters of that
    fragment.  A literal that is opened and never closed is an error in
    every XPath expression; any other expression outside the fragment
    is reported as such and not interpreted.  The lexer takes every
    character inside a literal: the strings lxml refuses before the engine
    sees them (those with control characters) are not told apart here, and
    are excluded where a result is stated. *)

Inductive token : Type :=
| TSlash | TSlash2 | TDot | TDot2
| TLBr | TRBr | TLPar | TRPar | TEq
| TName (s : string)
| TLit (s : string).

Inductive lstate : Type :=
| LStart
| LSlash                            (* one slash read *)
| LDot                              (* one dot read *)
| LName (acc : string)              (* inside a name *)
| LLit (q : ascii) (acc : string).  (* inside a literal opened by q *)

Definition dquote : ascii := ascii_of_nat 34.
Definition squote : ascii := ascii_of_nat 39.

Definition snoc (s : string) (c : ascii) : string := s ++ String c EmptyString.

(** What a character does at the start of a token. *)
Definition start (c : ascii) : option (list token * lstate) :=
  if Ascii.eqb c "/" then Some ([], LSlash)
  else if Ascii.eqb c "." then Some ([], LDot)
  else if Ascii.eqb c "[" then Some ([TLBr], LStart)
  else if Ascii.eqb c "]" then Some ([TRBr], LStart)
  else if Ascii.eqb c "(" then Some ([TLPar], LStart)
  else if Ascii.eqb c ")" then Some ([TRPar], LStart)
  else if Ascii.eqb c "=" then Some ([TEq], LStart)
  else if Ascii.eqb c dquote then Some ([], LLit dquote EmptyString)
  else if Ascii.eqb c squote then Some ([], LLit squote EmptyString)
  else if name_start c then Some ([], LName (String c EmptyString))
  else None.

Definition emit (ts : list token) (r : option (list token * lstate))
  : option (list token * lstate) :=
  match r with
  | Some (ts', st) => Some (ts ++ ts', st)
  | None => None
  end.

Definition lstep (st : lstate) (c : ascii) : option (list token * lstate) :=
  match st with
  | LStart => start c
  | LSlash => if Ascii.eqb c "/" then Some ([TSlash2], LStart)
              else emit [TSlash] (start c)
  | LDot => if Ascii.eqb c "." then Some ([TDot2], LStart)
            else emit [TDot] (start c)
  | LName acc => if name_char c then Some ([], LName (snoc acc c))
                 else emit [TName acc] (start c)
  | LLit q acc => if Ascii.eqb c q then Some ([TLit acc], LStart)
                  else Some ([], LLit q (snoc acc c))
  end.

Inductive lexed : Type :=
| Tokens (ts : list token)
| UnfinishedLiteral
| OutsideFragment.

Definition prepend (ts : list token) (r : lexed) : lexed :=
  match r with
  | Tokens ts' => Tokens (ts ++ ts')
  | other => other
  end.

Fixpoint lex (st : lstate) (s : string) : lexed :=
  match s with
  | EmptyString =>
      match st with
      | LStart => Tokens []
      | LSlash => Tokens [TSlash]
      | LDot => Tokens [TDot]
      | LName acc => Tokens [TName acc]
      | LLit _ _ => UnfinishedLiteral
      end
  | String c s' =>
      match lstep st c with
      | Some (ts, st') => prepend ts (lex st' s')
      | None => OutsideFragment
      end
  end.

Inductive step : Type :=
| Child (name : string) (texts : list string)  (* name[text()=s1][text()=s2]... *)
| Parent.                                      (* .. *)

(** [cur] holds the steps read so far, the latest first. *)
Fixpoint parse_steps (cur : list step) (ts : list token) : option (list step) :=
  match ts with
  | [] => Some (rev cur)
  | TSlash :: TName n :: ts' => parse_steps (Child n [] :: cur) ts'
  | TSlash :: TDot2 :: ts' => parse_steps (Parent :: cur) ts'
  | TLBr :: TName f :: TLPar :: TRPar :: TEq :: TLit s :: TRBr :: ts' =>
      if String.eqb f "text" then
        match cur with
        | Child n ps :: cur' => parse_steps (Child n (ps ++ [s]) :: cur') ts'
        | _ => None
        end
      else None
  | _ => None
  end.

Definition parse (ts : list token) : option (list step) :=
  match ts with
  | TSlash2 :: TName n :: ts' => parse_steps [Child n []] ts'
  | _ => None
  end.

Fixpoint path_eqb (p q : path) : bool :=
  match p, q with
  | [], [] => true
  | i :: p', j :: q' => Nat.eqb i j && path_eqb p' q'
  | _, _ => false
  end.

Definition is_root (n : node) : bool :=
  match fst n with [] => true | _ => false end.

(** [is_child_of p q]: node [q] is a child of node [p]. *)
Definition is_child_of (p q : node) : bool :=
  negb (is_root q) && path_eqb (removelast (fst q)) (fst p).

(** [text()=s] holds at an element when one of its text nodes is [s]. *)
Definition text_is (s : string) (e : Element) : bool :=
  existsb (fun x => String.eqb x s) (text_nodes e).

Definition test (name : string) (texts : list string) (n : node) : bool :=
  has_tag name (snd n) && forallb (fun s => text_is s (snd n)) texts.

(** A node-set is kept as the sub-list of the document's nodes that belong
    to it: in document order and without repetition. *)
Definition select (doc : Element) (keep : node -> bool) : list node :=
  filter keep (nodes doc).

Definition eval_step (doc : Element) (N : list node) (st : step)
  : Res (list node) :=
  match st with
  | Child name texts =>
      Ok (select doc (fun q => existsb (fun p => is_child_of p q) N
                               && test name texts q))
  | Parent =>
      (* the parent of the root element is the document node *)
      if existsb is_root N then Raise Unmodelled
      else Ok (select doc (fun r => existsb (fun q => is_child_of r q) N))
  end.

Fixpoint eval_steps (doc : Element) (N : list node) (sts : list step)
  : Res (list node) :=
  match sts with
  | [] => Ok N
  | st :: sts' =>
      match eval_step doc N st with
      | Ok N' => eval_steps doc N' sts'
      | Raise e => Raise e
      end
  end.

(** The leading [//name] selects every element of that name in the
    document, the root element included. *)
Definition eval (doc : Element) (q : list step) : Res (list node) :=
  match q with
  | Child name texts :: sts => eval_steps doc (select doc (test name texts)) sts
  | _ => Raise Unmodelled
  end.

Definition xpath (doc : Element) (query : string) : Res (list Element) :=
  match lex LStart query with
  | UnfinishedLiteral => Raise XPathEvalError
  | OutsideFragment => Raise Unmodelled
  | Tokens ts =>
      match parse ts with
      | None => Raise Unmodelled
      | Some q =>
          match eval doc q with
          | Ok N => Ok (map snd N)
          | Raise e => Raise e
          end
      end
  end.

End Lxml.

(** ** requests: sessions *)

Module Requests.

Record Response : Type := mkResponse {
  status_code : nat;
  content : string
}.

(** A session keeps its credentials.  [calls] is instrumentation: the
    arguments of the [get] calls made on this session, the latest first. *)
Record Session : Type := mkSession {
  auth : string * string;
  calls : list (option string)
}.

Section Transport.
Context {W : Type}.
(** What the network answers to a GET of a URL: a response of whatever
    status, or an exception raised inside requests. *)
Variable transport : string -> W -> Res Response * W.

(** [session.get(url)].  requests formats a url of None as a string without
    a scheme and raises MissingSchema before anything is sent; it returns
    the response of any status without raising. *)
Definition get (r : Session) (url : option string) (w : W)
  : Res Response * Session * W :=
  let r' := {| auth := auth r; calls := url :: calls r |} in
  match url with
  | None => (Raise RequestException, r', w)
  | Some u => let (resp, w') := transport u w in (resp, r', w')
  end.

End Transport.

End Requests.

(** ** APIObject *)

Module APIObject.
Import Lxml.

Record t : Type := mk {
  __details : Element;
  _id : option string
}.

Definition _find (self : t) (key : string) : Res (option Element) :=
  find key (__details self).

(** [self._find("id").text]: the text of None is an AttributeError.  The
    record passed to [_find] is the object under construction, which has
    its details and not yet its [_id]. *)
Definition __init__ (el : Element) : Res t :=
  let self := {| __details := el; _id := None |} in
  match _find self "id" with
  | Raise e => Raise e
  | Ok None => Raise AttributeError
  | Ok (Some f) => Ok {| __details := el; _id := text f |}
  end.

Definition __getattr__ (self : t) (key : string) : Res (option string) :=
  match _find self key with
  | Raise e => Raise e
  | Ok None => Ok None
  | Ok (Some f) => Ok (text f)
  end.

(** What an attribute access [obj.name] can give. *)
Inductive value : Type :=
| VLogger                       (* the logger kept in [self.l] *)
| VElement (e : Element)        (* the wrapped node *)
| VMethod (name : string)       (* a bound method *)
| VText (v : option string).    (* a string, or None *)

Definition double_underscore (s : string) : bool :=
  match s with
  | String a (String b _) => Ascii.eqb a "_" && Ascii.eqb b "_"
  | _ => false
  end.

(** The names Python finds on the object without asking [__getattr__]:
    the attributes [__init__] assigns ([self.__details] is stored under
    its mangled name) and the method of the class.  The double-underscore
    names, most of them bound on every object, are counted with them. *)
Definition bound_on_object (name : string) : bool :=
  String.eqb name "l" || String.eqb name "_APIObject__details"
  || String.eqb name "_id" || String.eqb name "_find"
  || double_underscore name.

(** [obj.name] on a constructed object: Python looks the name up on the
    object and its class, and calls [__getattr__] only when that fails.
    What the double-underscore names give is outside the model. *)
Definition getattr (self : t) (name : string) : Res value :=
  if String.eqb name "l" then Ok VLogger
  else if String.eqb name "_APIObject__details" then
    Ok (VElement (__details self))
  else if String.eqb name "_id" then Ok (VText (_id self))
  else if String.eqb name "_find" then Ok (VMethod "_find")
  else if double_underscore name then Raise Unmodelled
  else match __getattr__ self name with
       | Ok v => Ok (VText v)
       | Raise e => Raise e
       end.

End APIObject.

(** ** OneLogin *)

Definition API_HOST : string := "https://api.onelogin.com".
Definition API_VERS : string := "/api/v3".
Definition API_URL : string := API_HOST ++ API_VERS.

(** A resource class, as [_list] and [_filter] use it: [cls.load(id, key)]
    builds the object for the record whose id element is given.  The
    classes live outside this module; [load] may use the network and may
    raise. *)
Class APIClass (W Obj : Type) : Type := {
  load : Lxml.Element -> string -> W -> Res Obj * W
}.

Module OneLogin.
Import Lxml.

Record t : Type := mk {
  _url : option string;
  _cache : option Element;
  _api_key : string;
  _conn : Requests.Session
}.

Definition session (_api_key : string) : Requests.Session :=
  {| Requests.auth := (_api_key, "x"); Requests.calls := [] |}.

(** [_url] and [_cache] are class attributes, None in the base class; a
    subclass sets its own [_url]. *)
Definition __init__ (class_url : option string) (api_key : string) : t :=
  {| _url := class_url; _cache := None;
     _api_key := api_key; _conn := session api_key |}.

Section Client.
Context {W : Type}.
Variable transport : string -> W -> Res Requests.Response * W.
(** [lxml.objectify.fromstring]: None stands for XMLSyntaxError. *)
Variable fromstring : string -> option Element.
Context {Obj : Type} (cls : APIClass W Obj).

Record State : Type := mkState {
  self : t;
  world : W
}.

Definition M (A : Type) : Type := State -> Res A * State.

Definition ret {A} (a : A) : M A := fun s => (Ok a, s).
Definition raise {A} (e : exn) : M A := fun s => (Raise e, s).
Definition bind {A B} (m : M A) (f : A -> M B) : M B :=
  fun s => match m s with
           | (Ok a, s') => f a s'
           | (Raise e, s') => (Raise e, s')
           end.
Definition lift {A} (r : Res A) : M A := fun s => (r, s).
Definition get_self : M t := fun s => (Ok (self s), s).

Notation "x <- m ;; k" := (bind m (fun x => k))
  (at level 61, m at next level, right associativity).
Notation "m ;;; k" := (bind m (fun _ => k))
  (at level 61, right associativity).

Fixpoint mapM {A B} (f : A -> M B) (l : list A) : M (list B) :=
  match l with
  | [] => ret []
  | x :: l' => y <- f x ;; ys <- mapM f l' ;; ret (y :: ys)
  end.

(** [self._conn.get(url)] *)
Definition conn_get (url : option string) : M Requests.Response :=
  fun s =>
    let '(r, conn, w) := Requests.get transport (_conn (self s)) url (world s) in
    (r, {| self := {| _url := _url (self s); _cache := _cache (self s);
                      _api_key := _api_key (self s); _conn := conn |};
           world := w |}).

(** [self._cache = doc] *)
Definition set_cache (doc : Element) : M unit :=
  fun s =>
    (Ok tt, {| self := {| _url := _url (self s); _cache := Some doc;
                          _api_key := _api_key (self s);
                          _conn := _conn (self s) |};
               world := world s |}).

(** [cls.load(id, key)] *)
Definition call_load (id : Element) (key : string) : M Obj :=
  fun s => let (r, w) := load id key (world s) in
           (r, {| self := self s; world := w |}).

Definition _reload (url : option string) : M unit :=
  me <- get_self ;;
  let url := match url with None => _url me | Some u => Some u end in
  resp <- conn_get url ;;
  match fromstring (Requests.content resp) with
  | None => raise XMLSyntaxError
  | Some doc => set_cache doc
  end.

(** [[cls.load(o.id, self._api_key) for o in els]] *)
Definition load_each (els : list Element) : M (list Obj) :=
  mapM (fun o => id <- lift (objectify_getattr o "id") ;;
                 me <- get_self ;;
                 call_load id (_api_key me)) els.

Definition is_none {A} (o : option A) : bool :=
  match o with None => true | Some _ => false end.

Definition _list (api_type : string) (refresh : bool) : M (list Obj) :=
  me <- get_self ;;
  (if refresh || is_none (_cache me) then _reload (_url me) else ret tt) ;;;
  me <- get_self ;;
  match _cache me with
  | None => raise AttributeError
  | Some doc =>
      objlist <- lift (objectify_getattr doc api_type) ;;
      load_each (siblings doc (tag objlist))
  end.

(** ['//%s/%s[text()="%s"]/..' % (api_type, field, search)] *)
Definition filter_query (api_type field search : string) : string :=
  "//" ++ api_type ++ "/" ++ field ++ "[text()="
       ++ String dquote (search ++ String dquote "]/..").

Definition _filter (api_type search field : string) : M (list Obj) :=
  me <- get_self ;;
  (if is_none (_cache me) then _reload None else ret tt) ;;;
  me <- get_self ;;
  match _cache me with
  | None => raise AttributeError
  | Some doc =>
      results <- lift (xpath doc (filter_query api_type field search)) ;;
      load_each results
  end.

Definition _find (api_type search field : string) : M (option Obj) :=
  apobj <- _filter api_type search field ;;
  if (0 <? List.length apobj)%nat then
    match nth_error apobj 0 with
    | Some o => ret (Some o)
    | None => raise IndexError
    end
  else ret None.

End Client.

End OneLogin.

(** ** Reference definitions

    What the lookups are meant to compute, written on the document tree
    without reference to queries; the theorems compare the code with
    them. *)

Module Spec.
Import Lxml.

Definition no_dquote (s : string) : bool :=
  all_chars (fun c => negb (Ascii.eqb c dquote)) s.

(** ASCII text that lxml accepts as a string: tab, line feed, carriage
    return and the characters from the space on. *)
Definition plain_char (c : ascii) : bool :=
  let n := nat_of_ascii c in
  Nat.eqb n 9 || Nat.eqb n 10 || Nat.eqb n 13
  || ((32 <=? n)%nat && (n <=? 127)%nat).

Definition plain_text (s : string) : bool := all_chars plain_char s.

(** The record [r] has a child named [field] one of whose text nodes is
    exactly [search]. *)
Definition field_equals (field search : string) (r : Element) : bool :=
  existsb (fun c => has_tag field c && text_is search c) (children r).

(** Every element named [T] of the document with such a child, in document
    order. *)
Definition exact_matches (T field search : string) (doc : Element)
  : list Element :=
  filter (fun r => has_tag T r && field_equals field search r)
         (descendants doc).

(** The objects [objs] are what [cls.load] returns for the id elements of
    the records [rs], one call per record and in their order, the world
    going from [w] to [w']. *)
Inductive loads_in_order {W Obj : Type} (cls : APIClass W Obj) (key : string)
  : list Element -> W -> list Obj -> W -> Prop :=
| loads_nil w : loads_in_order cls key [] w [] w
| loads_cons r rs id o os w w1 w2 :
    objectify_getattr r "id" = Ok id ->
    load id key w = (Ok o, w1) ->
    loads_in_order cls key rs w1 os w2 ->
    loads_in_order cls key (r :: rs) w (o :: os) w2.

End Spec.

(** ** Sample data

    A listing with two users whose addresses share a prefix, a transport
    that answers every GET with a canned response, a stand-in for
    [fromstring] that knows the two payloads used here, and a resource
    class whose [load] returns the text of the id it is given. *)

Module Sample.
Import Lxml.

Definition user (id email : string) : Element :=
  Elem "user" None [Elem "id" (Some id) []; Elem "email" (Some email) []].

Definition listing : Element :=
  Elem "users" None [user "1" "a@x.com"; user "2" "ab@x.com"].

Definition listing_xml : string :=
  "<users><user><id>1</id><email>a@x.com</email></user>"
  ++ "<user><id>2</id><email>ab@x.com</email></user></users>".

Definition error_xml : string :=
  "<error><message>Internal Server Error</message></error>".

Definition error_doc : Element :=
  Elem "error" None [Elem "message" (Some "Internal Server Error") []].

Definition fromstring (body : string) : option Element :=
  if String.eqb body listing_xml then Some listing
  else if String.eqb body error_xml then Some error_doc
  else None.

(** The world is the number of GETs answered so far. *)
Definition answer (resp : Res Requests.Response) (url : string) (w : nat)
  : Res Requests.Response * nat := (resp, S w).

Definition ok_200 : Res Requests.Response :=
  Ok (Requests.mkResponse 200 listing_xml).
Definition error_500 : Res Requests.Response :=
  Ok (Requests.mkResponse 500 error_xml).
Definition garbage_200 : Res Requests.Response :=
  Ok (Requests.mkResponse 200 "not a document").

#[export] Instance by_id : APIClass nat (option string) :=
  {| load := fun id _ w => (Ok (text id), S w) |}.

Definition client (cache : option Element) : OneLogin.t :=
  {| OneLogin._url := Some (API_URL ++ "/users.xml")%string;
     OneLogin._cache := cache;
     OneLogin._api_key := "key";
     OneLogin._conn := OneLogin.session "key" |}.

Definition state (cache : option Element) : OneLogin.State :=
  OneLogin.mkState (client cache) 0.

(** A record whose address contains a double quote. *)
Definition quoted : string := "a" ++ String dquote "b".
Definition quoted_listing : Element :=
  Elem "users" None [user "7" quoted].

End Sample.

(** * Facts about documents and node-sets *)

Module LxmlFacts.
Import Lxml.

Lemma Element_ind (P : Element -> Prop) :
  (forall t x cs tl, Forall P cs -> P (Node t x cs tl)) -> forall e, P e.
Proof.
  intros H.
  refine (fix IH (e : Element) : P e :=
            match e with
            | Node t x cs tl =>
                H t x cs tl
                  ((fix all (l : list Element) : Forall P l :=
                      match l with
                      | [] => Forall_nil P
                      | c :: l' => Forall_cons c (IH c) (all l')
                      end) cs)
            end).
Qed.

Lemma nodes_eq t x cs tl :
  nodes (Node t x cs tl) = ([], Node t x cs tl) :: nodes_from 0 cs.
Proof.
  reflexivity.
Qed.

Lemma in_nodes_from p x i cs :
  In (p, x) (nodes_from i cs) <->
  exists j c p', p = (i + j) :: p' /\ nth_error cs j = Some c
                 /\ In (p', x) (nodes c).
Proof.
  revert i. induction cs as [|c cs' IHcs]; intros i; cbn [nodes_from].
  - split; [intros [] | intros (j & c & p' & _ & Hn & _)].
    destruct j; discriminate.
  - rewrite in_app_iff, in_map_iff, IHcs. split.
    + intros [([p' y] & Heq & Hin) | (j & d & p' & -> & Hn & Hin)].
      * unfold under in Heq. cbn in Heq. inversion Heq; subst.
        exists 0, c, p'. rewrite Nat.add_0_r. auto.
      * exists (S j), d, p'. rewrite Nat.add_succ_r. auto.
    + intros (j & d & p' & -> & Hn & Hin). destruct j as [|j].
      * cbn in Hn. inversion Hn; subst. left. exists (p', x).
        unfold under. cbn. rewrite Nat.add_0_r. auto.
      * right. exists j, d, p'. rewrite Nat.add_succ_r. auto.
Qed.

(** The nodes of a document are exactly the paths [get] resolves. *)
Lemma in_nodes_get e : forall p x, In (p, x) (nodes e) <-> get e p = Some x.
Proof.
  induction e as [t y cs tl IH] using Element_ind. intros p x.
  rewrite nodes_eq. cbn [In]. rewrite in_nodes_from. split.
  - intros [Heq | (j & c & p' & -> & Hn & Hin)].
    + now inversion Heq.
    + cbn. rewrite Hn. rewrite Forall_forall in IH.
      apply (IH c); [eapply nth_error_In; eauto | exact Hin].
  - destruct p as [|i p']; cbn.
    + intros Heq. left. now inversion Heq.
    + destruct (nth_error cs i) as [c|] eqn:Hn; [|discriminate].
      intros Hg. right. exists i, c, p'. repeat split; auto.
      rewrite Forall_forall in IH.
      apply (IH c); [eapply nth_error_In; eauto | exact Hg].
Qed.

Lemma map_snd_under i l : map snd (map (under i) l) = map snd l.
Proof. rewrite map_map. apply map_ext. now intros [p x]. Qed.

(** In document order the nodes are the root followed by its subtrees. *)
Lemma nodes_descendants e : map snd (nodes e) = descendants e.
Proof.
  induction e as [t y cs tl IH] using Element_ind.
  rewrite nodes_eq. cbn. f_equal.
  generalize 0. induction IH as [|c cs' Hc _ IHcs]; intros i; cbn.
  - reflexivity.
  - now rewrite map_app, map_snd_under, Hc, IHcs.
Qed.

Lemma get_snoc e : forall p i,
  get e (p ++ [i]) =
  match get e p with
  | Some x => nth_error (children x) i
  | None => None
  end.
Proof.
  intros p. revert e. induction p as [|j p' IHp]; intros e i; cbn.
  - now destruct (nth_error (children e) i).
  - destruct (nth_error (children e) j); [apply IHp | reflexivity].
Qed.

Lemma path_eqb_eq p q : path_eqb p q = true <-> p = q.
Proof.
  revert q. induction p as [|i p' IHp]; intros [|j q']; cbn;
    try (split; [discriminate | intros H; discriminate H]);
    try tauto.
  rewrite andb_true_iff, Nat.eqb_eq, IHp. split.
  - now intros [-> ->].
  - intros H. inversion H. auto.
Qed.

(** [q] is a child of [p] exactly when its path extends that of [p] by one
    index. *)
Lemma is_child_of_iff (p q : node) :
  is_child_of p q = true <-> exists i, fst q = fst p ++ [i].
Proof.
  unfold is_child_of, is_root. rewrite andb_true_iff, path_eqb_eq. split.
  - intros [Hne Hrm]. destruct (fst q) as [|a l] eqn:Hq; [discriminate|].
    assert (Hnil : a :: l <> []) by discriminate.
    destruct (exists_last Hnil) as (l' & i & Hl). exists i.
    rewrite Hl in *. now rewrite removelast_last in Hrm; subst.
  - intros [i ->]. rewrite removelast_last. split; [|reflexivity].
    now destruct (fst p).
Qed.

Lemma filter_ext_in_snd (b : node -> bool) (P : Element -> bool)
      (l : list node) :
  (forall n, In n l -> b n = P (snd n)) ->
  map snd (filter b l) = filter P (map snd l).
Proof.
  induction l as [|n l' IHl]; intros H; cbn; [reflexivity|].
  rewrite (H n (or_introl eq_refl)).
  destruct (P (snd n)); cbn; rewrite IHl; auto;
    intros m Hm; apply H; now right.
Qed.

End LxmlFacts.

(** * Facts about the XPath lexer *)

Module LexFacts.
Import Lxml Spec.
#[local] Open Scope string_scope.

Lemma sapp_assoc (a b c : string) : (a ++ b) ++ c = a ++ (b ++ c).
Proof. induction a as [|x a' IHa]; cbn; [reflexivity | now rewrite IHa]. Qed.

Lemma sapp_nil_r (a : string) : a ++ "" = a.
Proof. induction a as [|x a' IHa]; cbn; [reflexivity | now rewrite IHa]. Qed.

Lemma prepend_nil r : prepend [] r = r.
Proof. now destruct r. Qed.

Lemma prepend_prepend ts us r :
  prepend ts (prepend us r) = prepend (ts ++ us)%list r.
Proof. destruct r; cbn; try reflexivity. now rewrite app_assoc. Qed.

Lemma start_name c :
  name_start c = true -> start c = Some ([], LName (String c "")).
Proof.
  destruct c as [[] [] [] [] [] [] [] []]; intros H;
    try reflexivity; discriminate H.
Qed.

Lemma name_start_not_slash c :
  name_start c = true -> Ascii.eqb c "/" = false.
Proof.
  destruct c as [[] [] [] [] [] [] [] []]; intros H;
    try reflexivity; discriminate H.
Qed.

(** The lexer reads a run of name characters into the name it holds. *)
Lemma lex_name_run m : forall acc r,
  all_chars name_char m = true ->
  lex (LName acc) (m ++ r) = lex (LName (acc ++ m)) r.
Proof.
  induction m as [|c m' IHm]; intros acc r H; cbn [append].
  - now rewrite sapp_nil_r.
  - cbn in H. apply andb_true_iff in H as [Hc Hm].
    cbn [lex lstep]. rewrite Hc, prepend_nil, IHm by exact Hm.
    unfold snoc. now rewrite sapp_assoc.
Qed.

(** The lexer reads a literal up to the first occurrence of its quote. *)
Lemma lex_literal q s : forall acc r,
  all_chars (fun c => negb (Ascii.eqb c q)) s = true ->
  lex (LLit q acc) (s ++ String q r) = prepend [TLit (acc ++ s)] (lex LStart r).
Proof.
  induction s as [|c s' IHs]; intros acc r H; cbn [append].
  - cbn [lex lstep]. now rewrite Ascii.eqb_refl, sapp_nil_r.
  - cbn in H. apply andb_true_iff in H as [Hc Hs].
    apply negb_true_iff in Hc.
    cbn [lex lstep]. rewrite Hc, prepend_nil, IHs by exact Hs.
    unfold snoc. now rewrite sapp_assoc.
Qed.

(** A literal that never meets its quote is left unfinished. *)
Lemma lex_unfinished q s : forall acc,
  all_chars (fun c => negb (Ascii.eqb c q)) s = true ->
  lex (LLit q acc) s = UnfinishedLiteral.
Proof.
  induction s as [|c s' IHs]; intros acc H; [reflexivity|].
  cbn in H. apply andb_true_iff in H as [Hc Hs].
  apply negb_true_iff in Hc.
  cbn [lex lstep]. now rewrite Hc, prepend_nil, IHs.
Qed.

(** A name is read as one name token when a slash or a bracket follows. *)
Lemma lex_name_then n c r :
  is_name n = true ->
  name_char c = false ->
  lex LStart (n ++ String c r) = lex (LName n) (String c r).
Proof.
  destruct n as [|a n']; [discriminate|]. cbn [is_name].
  intros H Hc. apply andb_true_iff in H as [Ha Hn].
  cbn [append lex lstep]. rewrite (start_name _ Ha), prepend_nil.
  now rewrite lex_name_run by exact Hn.
Qed.

Lemma lex_slash_name n c r :
  is_name n = true ->
  name_char c = false ->
  lex LSlash (n ++ String c r) = prepend [TSlash] (lex (LName n) (String c r)).
Proof.
  destruct n as [|a n']; [discriminate|]. cbn [is_name].
  intros H Hc. apply andb_true_iff in H as [Ha Hn].
  cbn [append lex lstep].
  rewrite (name_start_not_slash _ Ha), (start_name _ Ha). cbn [emit app].
  now rewrite lex_name_run by exact Hn.
Qed.

Lemma lex_cons st c s ts st' :
  lstep st c = Some (ts, st') ->
  lex st (String c s) = prepend ts (lex st' s).
Proof. intros H. cbn [lex]. now rewrite H. Qed.

Lemma lex_text_eq r :
  lex LStart (String "t" (String "e" (String "x" (String "t"
    (String "(" (String ")" (String "=" (String dquote r)))))))) =
  prepend [TName "text"; TLPar; TRPar; TEq] (lex (LLit dquote "") r).
Proof.
  do 8 (erewrite lex_cons by (vm_compute; reflexivity)).
  now rewrite ?prepend_prepend, ?prepend_nil.
Qed.

(** For names and a search term free of the double quote, the interpolated
    query reads as the intended thirteen tokens. *)
Lemma lex_filter_query T F S :
  is_name T = true -> is_name F = true -> no_dquote S = true ->
  lex LStart (OneLogin.filter_query T F S) =
  Tokens [TSlash2; TName T; TSlash; TName F; TLBr; TName "text"; TLPar;
          TRPar; TEq; TLit S; TRBr; TSlash; TDot2].
Proof.
  intros HT HF HS. unfold OneLogin.filter_query.
  change ("//" ++ T ++ "/" ++ F ++ "[text()="
               ++ String dquote (S ++ String dquote "]/.."))
    with (String "/" (String "/" (T ++ String "/" (F ++ String "["
            ("text()=" ++ String dquote (S ++ String dquote "]/..")))))).
  cbn [lex lstep start Ascii.eqb Bool.eqb].
  rewrite (lex_name_then T "/") by (exact HT || reflexivity).
  cbn [lex]. change (lstep (LName T) "/") with (Some ([TName T], LSlash)).
  cbv beta iota.
  rewrite (lex_slash_name F "[") by (exact HF || reflexivity).
  cbn [lex]. change (lstep (LName F) "[") with (Some ([TName F; TLBr], LStart)).
  cbv beta iota. cbn [append].
  rewrite (lex_text_eq (S ++ String dquote "]/..")).
  rewrite (lex_literal dquote S) by exact HS.
  reflexivity.
Qed.

End LexFacts.

(** * The query of [_filter] against the reference definition *)

Module XPathFacts.
Import Lxml Spec LxmlFacts LexFacts.
#[local] Open Scope string_scope.
#[local] Open Scope list_scope.

Lemma parse_filter_tokens T F S :
  parse [TSlash2; TName T; TSlash; TName F; TLBr; TName "text"; TLPar;
         TRPar; TEq; TLit S; TRBr; TSlash; TDot2]
  = Some [Child T []; Child F [S]; Parent].
Proof. reflexivity. Qed.

Section NodeSets.
Variable doc : Element.
Variables T F S : string.

(** The node-sets after the first and the second step of the query. *)
Let N1 : list node := select doc (test T []).
Let N2 : list node :=
  select doc (fun q => existsb (fun p => is_child_of p q) N1 && test F [S] q).

Lemma in_N1 p : In p N1 <-> In p (nodes doc) /\ has_tag T (snd p) = true.
Proof.
  unfold N1, select, test. rewrite filter_In. cbn [forallb].
  now rewrite andb_true_r.
Qed.

Lemma in_N2 q :
  In q N2 <->
  In q (nodes doc) /\ (exists p, In p N1 /\ is_child_of p q = true)
  /\ has_tag F (snd q) = true /\ text_is S (snd q) = true.
Proof.
  unfold N2, select, test. rewrite filter_In. cbn [forallb].
  rewrite andb_true_r, !andb_true_iff, existsb_exists. tauto.
Qed.

Lemma no_root_in_N2 : existsb is_root N2 = false.
Proof.
  destruct (existsb is_root N2) eqn:E; [|reflexivity].
  apply existsb_exists in E as (q & Hq & Hroot).
  apply in_N2 in Hq as (_ & (p & _ & Hc) & _).
  unfold is_child_of in Hc. rewrite Hroot in Hc. discriminate.
Qed.

(** A node has a child in the second node-set exactly when it is a record
    named [T] with a field [F] of text [S]. *)
Lemma parent_of_N2 n :
  In n (nodes doc) ->
  existsb (fun q => is_child_of n q) N2
  = has_tag T (snd n) && field_equals F S (snd n).
Proof.
  destruct n as [r x]. intros Hn. cbn [snd].
  apply eq_true_iff_eq.
  rewrite existsb_exists, andb_true_iff. unfold field_equals.
  rewrite existsb_exists. split.
  - intros ([q c] & Hq & Hc).
    apply in_N2 in Hq as (Hqn & ([p y] & Hp & Hpc) & HF & HS).
    apply is_child_of_iff in Hc as [i Hi].
    apply is_child_of_iff in Hpc as [j Hj]. cbn [fst snd] in *.
    rewrite Hi in Hj. apply app_inj_tail in Hj as [<- <-].
    apply in_N1 in Hp as [Hpn HT]. cbn [snd] in HT.
    apply in_nodes_get in Hn, Hpn, Hqn.
    rewrite Hn in Hpn. inversion Hpn; subst y.
    subst q. rewrite get_snoc, Hn in Hqn.
    split; [exact HT|]. exists c. split.
    + eapply nth_error_In; eauto.
    + now rewrite HF, HS.
  - intros [HT (c & Hin & Hc)].
    apply andb_true_iff in Hc as [HF HS].
    apply In_nth_error in Hin as [i Hi].
    apply in_nodes_get in Hn.
    assert (Hq : In (r ++ [i], c) (nodes doc)).
    { apply in_nodes_get. now rewrite get_snoc, Hn. }
    exists (r ++ [i], c). split.
    + apply in_N2. cbn [snd]. repeat split; auto.
      exists (r, x). split.
      * apply in_N1. split; [now apply in_nodes_get | exact HT].
      * apply is_child_of_iff. now exists i.
    + apply is_child_of_iff. now exists i.
Qed.

Lemma eval_filter_steps :
  eval doc [Child T []; Child F [S]; Parent]
  = Ok (select doc (fun r => existsb (fun q => is_child_of r q) N2)).
Proof.
  cbn [eval eval_steps eval_step]. fold N1. fold N2.
  now rewrite no_root_in_N2.
Qed.

End NodeSets.

(** For names and a search term free of the double quote, the query of
    [_filter] selects the exact matches, in document order. *)
Lemma xpath_filter_query doc T F S :
  is_name T = true -> is_name F = true -> no_dquote S = true ->
  xpath doc (OneLogin.filter_query T F S) = Ok (exact_matches T F S doc).
Proof.
  intros HT HF HS. unfold xpath.
  rewrite (lex_filter_query T F S HT HF HS), parse_filter_tokens.
  rewrite eval_filter_steps. f_equal.
  unfold select, exact_matches. rewrite <- nodes_descendants.
  apply filter_ext_in_snd. intros n Hn. now apply parent_of_N2.
Qed.

(** A search term with one double quote, followed by nothing or by a name,
    leaves the query with a literal that is never closed. *)
Lemma lex_filter_query_unfinished T F S1 S2 :
  is_name T = true -> is_name F = true ->
  no_dquote S1 = true ->
  S2 = "" \/ is_name S2 = true ->
  lex LStart (OneLogin.filter_query T F (S1 ++ String dquote S2))
  = UnfinishedLiteral.
Proof.
  intros HT HF HS1 HS2. unfold OneLogin.filter_query.
  change ("//" ++ T ++ "/" ++ F ++ "[text()="
               ++ String dquote ((S1 ++ String dquote S2)
                                   ++ String dquote "]/.."))%string
    with (String "/" (String "/" (T ++ String "/" (F ++ String "["
            ("text()=" ++ String dquote ((S1 ++ String dquote S2)
                                   ++ String dquote "]/..")))))%string).
  cbn [lex lstep start Ascii.eqb Bool.eqb].
  rewrite (lex_name_then T "/") by (exact HT || reflexivity).
  cbn [lex]. change (lstep (LName T) "/") with (Some ([TName T], LSlash)).
  cbv beta iota.
  rewrite (lex_slash_name F "[") by (exact HF || reflexivity).
  cbn [lex]. change (lstep (LName F) "[") with (Some ([TName F; TLBr], LStart)).
  cbv beta iota. cbn [append].
  rewrite lex_text_eq, sapp_assoc. cbn [append].
  rewrite (lex_literal dquote S1) by exact HS1.
  assert (E : lex LStart (S2 ++ String dquote "]/..") = UnfinishedLiteral).
  { destruct HS2 as [-> | HS2].
    - reflexivity.
    - rewrite (lex_name_then S2 dquote) by (exact HS2 || reflexivity).
      erewrite lex_cons by reflexivity. reflexivity. }
  now rewrite E.
Qed.

Lemma xpath_filter_query_unfinished doc T F S1 S2 :
  is_name T = true -> is_name F = true ->
  no_dquote S1 = true ->
  S2 = "" \/ is_name S2 = true ->
  xpath doc (OneLogin.filter_query T F (S1 ++ String dquote S2))
  = Raise XPathEvalError.
Proof.
  intros HT HF HS1 HS2. unfold xpath.
  now rewrite lex_filter_query_unfinished.
Qed.

End XPathFacts.

(** * The client *)

Module ClientFacts.
Import Lxml Spec LxmlFacts XPathFacts OneLogin.
#[local] Open Scope string_scope.
#[local] Open Scope list_scope.

Lemma find_hd_filter {A} (p : A -> bool) (l : list A) :
  List.find p l = hd_error (filter p l).
Proof.
  induction l as [|a l' IHl]; cbn; [reflexivity|].
  now destruct (p a).
Qed.

(** Looking up the child name [T] on the document gives the first record
    of the section, and its tag is [T]. *)
Lemma getattr_first_sibling doc T r rs :
  is_child_name T = true ->
  siblings doc T = r :: rs ->
  objectify_getattr doc T = Ok r /\ tag r = T.
Proof.
  unfold siblings, objectify_getattr, first_child. intros HT H.
  rewrite HT, find_hd_filter, H. cbn. split; [reflexivity|].
  assert (Hin : In r (filter (has_tag T) (children doc)))
    by (rewrite H; now left).
  apply filter_In in Hin as [_ Ht]. now apply String.eqb_eq in Ht.
Qed.

Lemma getattr_no_sibling doc T :
  is_child_name T = true ->
  siblings doc T = [] -> objectify_getattr doc T = Raise AttributeError.
Proof.
  unfold siblings, objectify_getattr, first_child. intros HT H.
  now rewrite HT, find_hd_filter, H.
Qed.

Section Client.
Context {W : Type}.
Variable transport : string -> W -> Res Requests.Response * W.
Variable fromstring : string -> option Element.
Context {Obj : Type} (cls : APIClass W Obj).

(** Loading the objects of a list of records leaves the client as it is:
    a resource class sees the id and the key only. *)
Lemma load_each_self els : forall s,
  self (snd (load_each cls els s)) = self s.
Proof.
  induction els as [|r rs IH]; intros s; [reflexivity|].
  unfold load_each in *. cbn [mapM]. unfold bind at 1.
  unfold bind at 1, lift at 1.
  destruct (objectify_getattr r "id") as [id|e]; [|reflexivity].
  unfold bind at 1, get_self at 1, call_load at 1.
  destruct (load id (_api_key (self s)) (world s)) as [[o|e] w];
    [|reflexivity].
  unfold bind at 1.
  specialize (IH {| self := self s; world := w |}).
  destruct (mapM _ rs _) as [[os|e] s']; exact IH.
Qed.

(** [load_each] returns a list exactly when the loads succeed in order. *)
Lemma load_each_ok els : forall s objs w',
  load_each cls els s = (Ok objs, {| self := self s; world := w' |}) <->
  loads_in_order cls (_api_key (self s)) els (world s) objs w'.
Proof.
  induction els as [|r rs IH]; intros s objs w'.
  - cbn. unfold ret. split.
    + intros H. inversion H. destruct s; cbn in *. subst. constructor.
    + intros H. inversion H; subst. now destruct s.
  - unfold load_each in *. cbn [mapM]. unfold bind at 1.
    unfold bind at 1, lift at 1.
    destruct (objectify_getattr r "id") as [id|e] eqn:Hid.
    2:{ split; intros H; inversion H; congruence. }
    unfold bind at 1, get_self at 1, call_load at 1.
    destruct (load id (_api_key (self s)) (world s)) as [[o|e] w] eqn:Hl.
    2:{ split; intros H; inversion H; congruence. }
    unfold bind at 1.
    pose proof (load_each_self rs {| self := self s; world := w |}) as Hself.
    unfold load_each in Hself.
    specialize (IH {| self := self s; world := w |}).
    destruct (mapM _ rs _) as [[os|e] s'] eqn:Hm; cbn in Hself, IH.
    + unfold ret. split.
      * intros H. inversion H; subst. econstructor; eauto.
        apply IH. reflexivity.
      * intros H. inversion H; subst.
        assert (id0 = id) by congruence. subst id0.
        rewrite Hl in *. match goal with
        | h : (Ok _, _) = (Ok _, _) |- _ => inversion h; subst end.
        match goal with
        | h : loads_in_order _ _ rs _ _ _ |- _ => apply IH in h;
            inversion h; subst end.
        reflexivity.
    + split; intros H; [discriminate|].
      inversion H; subst.
      assert (id0 = id) by congruence. subst id0.
      rewrite Hl in *. match goal with
      | h : (Ok _, _) = (Ok _, _) |- _ => inversion h; subst end.
      match goal with
      | h : loads_in_order _ _ rs _ _ _ |- _ => apply IH in h;
          discriminate h end.
Qed.


End Client.

End ClientFacts.

(** * Reloading the cache *)

Section Reload.
Import Lxml OneLogin.
Context {W : Type}.
Variable transport : string -> W -> Res Requests.Response * W.
Variable fromstring : string -> option Element.

(** The url [_reload] fetches: its argument, or [self._url] for None. *)
Definition fetched (url : option string) (s : State (W:=W)) : option string :=
  match url with None => _url (self s) | Some u => Some u end.

Lemma reload_run url s :
  _reload transport fromstring url s =
  match conn_get transport (fetched url s) s with
  | (Ok resp, s1) =>
      match fromstring (Requests.content resp) with
      | None => (Raise XMLSyntaxError, s1)
      | Some doc => set_cache doc s1
      end
  | (Raise e, s1) => (Raise e, s1)
  end.
Proof.
  unfold _reload, bind, get_self, fetched.
  destruct (conn_get transport _ s) as [[resp|e] s1]; [|reflexivity].
  now destruct (fromstring (Requests.content resp)).
Qed.

(** A GET on the session is logged and touches nothing else of the
    client. *)
Lemma conn_get_self url s :
  let s1 := snd (conn_get transport url s) in
  _url (self s1) = _url (self s) /\ _cache (self s1) = _cache (self s)
  /\ _api_key (self s1) = _api_key (self s)
  /\ Requests.calls (_conn (self s1)) = url :: Requests.calls (_conn (self s)).
Proof.
  unfold conn_get, Requests.get. destruct url as [u|]; cbn.
  - now destruct (transport u (world s)).
  - auto.
Qed.

(** One GET per reload, whatever its outcome. *)
Lemma reload_calls url s :
  Requests.calls (_conn (self (snd (_reload transport fromstring url s))))
  = fetched url s :: Requests.calls (_conn (self s)).
Proof.
  rewrite reload_run.
  pose proof (conn_get_self (fetched url s) s) as (_ & _ & _ & Hc).
  destruct (conn_get transport _ s) as [[resp|e] s1]; cbn in Hc; [|exact Hc].
  destruct (fromstring _); exact Hc.
Qed.

Lemma reload_ok url s s1 :
  _reload transport fromstring url s = (Ok tt, s1) ->
  exists doc, _cache (self s1) = Some doc.
Proof.
  rewrite reload_run.
  destruct (conn_get transport _ s) as [[resp|e] s']; [|discriminate].
  destruct (fromstring _) as [doc|]; [|discriminate].
  unfold set_cache. intros H. inversion H. now exists doc.
Qed.

(** C1. When the cache holds a document [D] and a reload fetches a body
    that does not parse, the reload raises the parse error and the cache
    still holds [D]: the cache is assigned after the parse only. *)
Theorem reload_parse_failure_preserves_cache url s D resp s1 :
  _cache (self s) = Some D ->
  conn_get transport (fetched url s) s = (Ok resp, s1) ->
  fromstring (Requests.content resp) = None ->
  _reload transport fromstring url s = (Raise XMLSyntaxError, s1)
  /\ _cache (self s1) = Some D.
Proof.
  intros HD Hget Hparse. rewrite reload_run, Hget, Hparse.
  split; [reflexivity|].
  pose proof (conn_get_self (fetched url s) s) as (_ & Hc & _).
  rewrite Hget in Hc. cbn in Hc. congruence.
Qed.

(** C2, as the code has it.  [_reload] looks at no status code and wraps no
    exception: an exception raised by the GET reaches the caller unchanged
    and leaves the cache alone; a response of any status whose body parses
    becomes the cached document; NetworkException leaves [_reload] only if
    the transport itself raised it. *)
Theorem reload_ignores_status_and_rethrows url s :
  (forall e s1,
      conn_get transport (fetched url s) s = (Raise e, s1) ->
      _reload transport fromstring url s = (Raise e, s1)
      /\ _cache (self s1) = _cache (self s))
  /\ (forall resp s1 doc,
         conn_get transport (fetched url s) s = (Ok resp, s1) ->
         fromstring (Requests.content resp) = Some doc ->
         fst (_reload transport fromstring url s) = Ok tt
         /\ _cache (self (snd (_reload transport fromstring url s)))
            = Some doc)
  /\ (fst (_reload transport fromstring url s) = Raise NetworkException ->
      fst (conn_get transport (fetched url s) s) = Raise NetworkException).
Proof.
  rewrite reload_run. split; [|split].
  - intros e s1 H. rewrite H. split; [reflexivity|].
    pose proof (conn_get_self (fetched url s) s) as (_ & Hc & _).
    rewrite H in Hc. exact Hc.
  - intros resp s1 doc H Hdoc. now rewrite H, Hdoc.
  - destruct (conn_get transport _ s) as [[resp|e] s1].
    + destruct (fromstring _); cbn; discriminate.
    + cbn. intros H. now inversion H.
Qed.

End Reload.

(** C1 on the sample: a cached listing survives a reload that fetches
    something that is not a document. *)
Lemma reload_parse_failure_preserves_cache_witness :
  let r := OneLogin._reload (Sample.answer Sample.garbage_200)
                            Sample.fromstring None
                            (Sample.state (Some Sample.listing)) in
  r = (Raise XMLSyntaxError, snd r)
  /\ OneLogin._cache (OneLogin.self (snd r)) = Some Sample.listing.
Proof.
  cbv zeta.
  destruct (reload_parse_failure_preserves_cache
              (Sample.answer Sample.garbage_200) Sample.fromstring None
              (Sample.state (Some Sample.listing)) Sample.listing
              (Requests.mkResponse 200 "not a document")
              (snd (OneLogin.conn_get (Sample.answer Sample.garbage_200)
                      (fetched None (Sample.state (Some Sample.listing)))
                      (Sample.state (Some Sample.listing))))
              eq_refl eq_refl eq_refl) as [H1 H2].
  split; [now rewrite H1 | exact H2].
Defined.

(** C2 on the sample: the body of a 200 response is cached, as the second
    part of the theorem says. *)
Lemma reload_ignores_status_and_rethrows_witness :
  let r := OneLogin._reload (Sample.answer Sample.ok_200)
                            Sample.fromstring None (Sample.state None) in
  fst r = Ok tt
  /\ OneLogin._cache (OneLogin.self (snd r)) = Some Sample.listing.
Proof.
  cbv zeta.
  exact (proj1 (proj2 (reload_ignores_status_and_rethrows
                         (Sample.answer Sample.ok_200) Sample.fromstring
                         None (Sample.state None)))
               (Requests.mkResponse 200 Sample.listing_xml) _ Sample.listing
               eq_refl eq_refl).
Defined.

(** C2 as stated fails: a response of status 500 does not surface as a
    NetworkException; its body is parsed and becomes the cached document. *)
Lemma reload_caches_body_of_error_status :
  let s := Sample.state None in
  let r := OneLogin._reload (Sample.answer Sample.error_500)
                            Sample.fromstring None s in
  Sample.answer Sample.error_500 (API_URL ++ "/users.xml")%string 0
  = (Ok (Requests.mkResponse 500 Sample.error_xml), 1)
  /\ fst r = Ok tt
  /\ fst r <> Raise NetworkException
  /\ OneLogin._cache (OneLogin.self (snd r)) = Some Sample.error_doc.
Proof.
  cbv zeta. repeat split; try reflexivity. vm_compute. discriminate.
Qed.

(** * Objects *)

Section Objects.
Import Lxml.

Lemma find_id el : find "id" el = Ok (first_child "id" el).
Proof. reflexivity. Qed.

Lemma init_ok el obj :
  APIObject.__init__ el = Ok obj ->
  exists f, first_child "id" el = Some f /\ obj = APIObject.mk el (text f).
Proof.
  unfold APIObject.__init__, APIObject._find. cbn [APIObject.__details].
  rewrite find_id. destruct (first_child "id" el) as [f|]; [|discriminate].
  intros H. inversion H. now exists f.
Qed.

(** C7, as the code has it.  Construction raises (an AttributeError, from
    taking the text of None) exactly when the node has no [id] child; when
    it succeeds the identity is the text of the first [id] child, whatever
    that text is. *)
Theorem init_requires_id_child el :
  (first_child "id" el = None ->
   APIObject.__init__ el = Raise AttributeError)
  /\ (forall obj, APIObject.__init__ el = Ok obj ->
        exists f, first_child "id" el = Some f
                  /\ APIObject._id obj = text f
                  /\ APIObject.__details obj = el).
Proof.
  split.
  - unfold APIObject.__init__, APIObject._find. cbn [APIObject.__details].
    rewrite find_id. now intros ->.
  - intros obj H. apply init_ok in H as (f & Hf & ->). now exists f.
Qed.

(** The hook [__getattr__] itself, on a constructed object: it returns the
    text of the first child with the requested name, and the absent value
    when the node has no such child; it does not raise. *)
Theorem getattr_returns_text_or_none el obj key :
  APIObject.__init__ el = Ok obj ->
  is_name key = true ->
  (forall c, first_child key el = Some c ->
     APIObject.__getattr__ obj key = Ok (text c))
  /\ (first_child key el = None ->
      APIObject.__getattr__ obj key = Ok None)
  /\ (exists v, APIObject.__getattr__ obj key = Ok v).
Proof.
  intros Hobj Hkey.
  apply init_ok in Hobj as (f & _ & ->).
  unfold APIObject.__getattr__, APIObject._find, find.
  cbn [APIObject.__details]. rewrite Hkey. repeat split.
  - now intros c ->.
  - now intros ->.
  - destruct (first_child key el); eauto.
Qed.

Lemma getattr_unbound obj key :
  APIObject.bound_on_object key = false ->
  APIObject.getattr obj key =
  match APIObject.__getattr__ obj key with
  | Ok v => Ok (APIObject.VText v)
  | Raise e => Raise e
  end.
Proof.
  unfold APIObject.bound_on_object, APIObject.getattr. intros H.
  repeat (apply orb_false_iff in H as [H ?]).
  now repeat match goal with h : _ = false |- _ => rewrite h; clear h end.
Qed.

(** C8, as the code has it.  On a constructed object, access to a field
    whose name Python does not find on the object itself returns the text
    of the first child with that name, and the absent value when the node
    has no such child; it does not raise.  The name [_id] is found on the
    object: access to it returns the identity, whatever children the node
    has. *)
Theorem field_access_returns_text_or_none el obj key :
  APIObject.__init__ el = Ok obj ->
  is_name key = true ->
  APIObject.bound_on_object key = false ->
  (forall c, first_child key el = Some c ->
     APIObject.getattr obj key = Ok (APIObject.VText (text c)))
  /\ (first_child key el = None ->
      APIObject.getattr obj key = Ok (APIObject.VText None))
  /\ (exists v, APIObject.getattr obj key = Ok (APIObject.VText v))
  /\ APIObject.getattr obj "_id" = Ok (APIObject.VText (APIObject._id obj)).
Proof.
  intros Hobj Hkey Hb. rewrite (getattr_unbound obj key Hb).
  apply init_ok in Hobj as (f & _ & ->).
  unfold APIObject.__getattr__, APIObject._find, find.
  cbn [APIObject.__details]. rewrite Hkey. repeat split.
  - now intros c ->.
  - now intros ->.
  - destruct (first_child key el); eauto.
Qed.

End Objects.

(** C7 on the sample: a record without an [id] child cannot be wrapped. *)
Lemma init_requires_id_child_witness :
  Lxml.first_child "id" (Lxml.Elem "user" None
                           [Lxml.Elem "email" (Some "a@x.com") []]) = None
  /\ APIObject.__init__ (Lxml.Elem "user" None
                           [Lxml.Elem "email" (Some "a@x.com") []])
     = Raise AttributeError.
Proof.
  split; [reflexivity|].
  apply (proj1 (init_requires_id_child _)). reflexivity.
Defined.

(** C7 as stated fails: a record whose [id] element is empty is wrapped
    without complaint, and the identity of the object is the absent
    value. *)
Lemma init_accepts_empty_id :
  APIObject.__init__ (Lxml.Elem "user" None [Lxml.Elem "id" None []])
  = Ok (APIObject.mk (Lxml.Elem "user" None [Lxml.Elem "id" None []]) None).
Proof. reflexivity. Qed.

(** The hook on the sample: a field the record has, and one it has not. *)
Lemma getattr_returns_text_or_none_witness :
  let obj := APIObject.mk (Sample.user "1" "a@x.com") (Some "1") in
  APIObject.__getattr__ obj "email" = Ok (Some "a@x.com")
  /\ APIObject.__getattr__ obj "phone" = Ok None.
Proof.
  cbv zeta. split.
  - exact (proj1 (getattr_returns_text_or_none
                    (Sample.user "1" "a@x.com") _ "email"
                    eq_refl eq_refl)
                 (Lxml.Elem "email" (Some "a@x.com") []) eq_refl).
  - exact (proj1 (proj2 (getattr_returns_text_or_none
                           (Sample.user "1" "a@x.com") _ "phone"
                           eq_refl eq_refl))
                 eq_refl).
Defined.

(** C8 on the sample: a field the record has, and one it has not. *)
Lemma field_access_returns_text_or_none_witness :
  let obj := APIObject.mk (Sample.user "1" "a@x.com") (Some "1") in
  APIObject.getattr obj "email" = Ok (APIObject.VText (Some "a@x.com"))
  /\ APIObject.getattr obj "phone" = Ok (APIObject.VText None).
Proof.
  cbv zeta. split.
  - exact (proj1 (field_access_returns_text_or_none
                    (Sample.user "1" "a@x.com") _ "email"
                    eq_refl eq_refl eq_refl)
                 (Lxml.Elem "email" (Some "a@x.com") []) eq_refl).
  - exact (proj1 (proj2 (field_access_returns_text_or_none
                           (Sample.user "1" "a@x.com") _ "phone"
                           eq_refl eq_refl eq_refl))
                 eq_refl).
Defined.

(** C8 as stated fails for a field named like an attribute of the object:
    the record has a child [_id] with text zz, and access to [_id] returns
    the identity 1; the child is not consulted. *)
Lemma field_access_prefers_object_attribute :
  let el := Lxml.Elem "user" None
              [Lxml.Elem "id" (Some "1") []; Lxml.Elem "_id" (Some "zz") []] in
  Lxml.is_name "_id" = true
  /\ Lxml.first_child "_id" el = Some (Lxml.Elem "_id" (Some "zz") [])
  /\ APIObject.__init__ el = Ok (APIObject.mk el (Some "1"))
  /\ APIObject.getattr (APIObject.mk el (Some "1")) "_id"
     = Ok (APIObject.VText (Some "1")).
Proof. cbv zeta. repeat split. Qed.

(** * Lookups *)

Section Lookups.
Import Lxml Spec LxmlFacts XPathFacts ClientFacts OneLogin.
Context {W : Type}.
Variable transport : string -> W -> Res Requests.Response * W.
Variable fromstring : string -> option Element.
Context {Obj : Type} (cls : APIClass W Obj).

(** The GET calls made so far on the session of the client. *)
Definition calls_of (s : State (W:=W)) : list (option string) :=
  Requests.calls (_conn (self s)).

(** What [_list] and [_filter] do once a document [doc] is in the cache. *)
Definition list_from (doc : Element) (T : string) : M (list Obj) :=
  fun s => match objectify_getattr doc T with
           | Ok objlist => load_each cls (siblings doc (tag objlist)) s
           | Raise e => (Raise e, s)
           end.

Definition filter_from (doc : Element) (T S F : string) : M (list Obj) :=
  fun s => match xpath doc (filter_query T F S) with
           | Ok results => load_each cls results s
           | Raise e => (Raise e, s)
           end.

Lemma list_from_self doc T s : self (snd (list_from doc T s)) = self s.
Proof.
  unfold list_from. destruct (objectify_getattr doc T); [|reflexivity].
  apply load_each_self.
Qed.

Lemma filter_from_self doc T S F s :
  self (snd (filter_from doc T S F s)) = self s.
Proof.
  unfold filter_from. destruct (xpath doc _); [|reflexivity].
  apply load_each_self.
Qed.

Lemma list_cached doc T s :
  _cache (self s) = Some doc -> _list transport fromstring cls T false s = list_from doc T s.
Proof.
  intros H. unfold _list, bind, get_self, ret, lift, list_from.
  cbn [orb]. rewrite H. cbn [is_none]. rewrite H.
  now destruct (objectify_getattr doc T).
Qed.

Lemma list_reloading T refresh s :
  refresh || is_none (_cache (self s)) = true ->
  _list transport fromstring cls T refresh s =
  match _reload transport fromstring (_url (self s)) s with
  | (Ok _, s1) =>
      match _cache (self s1) with
      | Some doc => list_from doc T s1
      | None => (Raise AttributeError, s1)
      end
  | (Raise e, s1) => (Raise e, s1)
  end.
Proof.
  intros H. unfold _list, bind at 1. unfold get_self at 1. rewrite H.
  unfold bind at 1.
  destruct (_reload transport fromstring (_url (self s)) s) as [[[]|e] s1]; [|reflexivity].
  unfold bind, get_self, raise, lift, list_from.
  destruct (_cache (self s1)) as [doc|]; [|reflexivity].
  now destruct (objectify_getattr doc T).
Qed.

Lemma filter_cached doc T S F s :
  _cache (self s) = Some doc -> _filter transport fromstring cls T S F s = filter_from doc T S F s.
Proof.
  intros H. unfold _filter, bind, get_self, ret, lift, filter_from.
  rewrite H. cbn [is_none]. rewrite H.
  now destruct (xpath doc _).
Qed.

Lemma filter_reloading T S F s :
  _cache (self s) = None ->
  _filter transport fromstring cls T S F s =
  match _reload transport fromstring None s with
  | (Ok _, s1) =>
      match _cache (self s1) with
      | Some doc => filter_from doc T S F s1
      | None => (Raise AttributeError, s1)
      end
  | (Raise e, s1) => (Raise e, s1)
  end.
Proof.
  intros H. unfold _filter, bind at 1. unfold get_self at 1. rewrite H.
  cbn [is_none]. unfold bind at 1.
  destruct (_reload transport fromstring None s) as [[[]|e] s1]; [|reflexivity].
  unfold bind, get_self, raise, lift, filter_from.
  destruct (_cache (self s1)) as [doc|]; [|reflexivity].
  now destruct (xpath doc _).
Qed.

Lemma fetched_url (s : State (W:=W)) :
  fetched (_url (self s)) s = _url (self s).
Proof. unfold fetched. now destruct (_url (self s)). Qed.

(** With no record of type [T] in the cached document the attribute
    lookup of [_list] raises. *)
Lemma list_without_records doc T s :
  _cache (self s) = Some doc ->
  is_child_name T = true ->
  siblings doc T = [] ->
  _list transport fromstring cls T false s = (Raise AttributeError, s).
Proof.
  intros Hc HT Hs. rewrite (list_cached doc T s Hc). unfold list_from.
  now rewrite (getattr_no_sibling doc T HT Hs).
Qed.

(** C6. [_find] is [_filter] followed by taking the head: the first object
    when there is one, the absent value when the list is empty, and
    whatever [_filter] raised otherwise; indexing never fails. *)
Theorem find_is_first_of_filter T S F s :
  _find transport fromstring cls T S F s =
  match _filter transport fromstring cls T S F s with
  | (Ok (o :: _), s') => (Ok (Some o), s')
  | (Ok [], s') => (Ok None, s')
  | (Raise e, s') => (Raise e, s')
  end.
Proof.
  unfold _find, bind.
  destruct (_filter transport fromstring cls T S F s) as [[[|o os]|e] s']; reflexivity.
Qed.


(** C5. [_list] fetches the listing exactly when [refresh] is set or the
    cache is empty, and then once; after a reload that succeeded, a
    [_list] without [refresh] makes no call on the session and reads the
    document that reload cached. *)
Theorem list_reloads_iff_refresh_or_empty T refresh s :
  calls_of (snd (_list transport fromstring cls T refresh s))
  = (if refresh || is_none (_cache (self s)) then [_url (self s)] else [])
      ++ calls_of s
  /\ (forall url s0 s1,
        _reload transport fromstring url s0 = (Ok tt, s1) ->
        exists doc,
          _cache (self s1) = Some doc
          /\ _list transport fromstring cls T false s1 = list_from doc T s1
          /\ calls_of (snd (_list transport fromstring cls T false s1))
             = calls_of s1
          /\ self (snd (_list transport fromstring cls T false s1)) = self s1).
Proof.
  unfold calls_of. split.
  - destruct (refresh || is_none (_cache (self s))) eqn:E.
    + rewrite (list_reloading T refresh s E).
      pose proof (reload_calls transport fromstring (_url (self s)) s) as Hc.
      rewrite fetched_url in Hc.
      destruct (_reload transport fromstring (_url (self s)) s) as [[[]|e] s1]; cbn [snd] in Hc;
        [|exact Hc].
      destruct (_cache (self s1)); [|exact Hc].
      now rewrite list_from_self.
    + apply orb_false_iff in E as [-> E].
      destruct (_cache (self s)) as [doc|] eqn:Hc; [|discriminate].
      now rewrite (list_cached doc T s Hc), list_from_self.
  - intros url s0 s1 H.
    destruct (reload_ok transport fromstring url s0 s1 H) as [doc Hd].
    exists doc. rewrite (list_cached doc T s1 Hd), list_from_self. auto.
Qed.

(** C4. [_filter] fetches the listing exactly when the cache is empty; it
    takes no refresh argument.  With a document in the cache it queries
    that document and leaves the client, its session included, as it
    was. *)
Theorem filter_reloads_only_when_cache_absent T S F s :
  calls_of (snd (_filter transport fromstring cls T S F s))
  = (if is_none (_cache (self s)) then [_url (self s)] else []) ++ calls_of s
  /\ (forall doc,
        _cache (self s) = Some doc ->
        _filter transport fromstring cls T S F s = filter_from doc T S F s
        /\ self (snd (_filter transport fromstring cls T S F s)) = self s).
Proof.
  unfold calls_of. split.
  - destruct (_cache (self s)) as [doc|] eqn:Hc; cbn [is_none].
    + now rewrite (filter_cached doc T S F s Hc), filter_from_self.
    + rewrite (filter_reloading T S F s Hc).
      pose proof (reload_calls transport fromstring None s) as Hl.
      cbn [fetched] in Hl.
      destruct (_reload transport fromstring None s) as [[[]|e] s1]; cbn [snd] in Hl; [|exact Hl].
      destruct (_cache (self s1)); [|exact Hl].
      now rewrite filter_from_self.
  - intros doc Hc.
    now rewrite (filter_cached doc T S F s Hc), filter_from_self.
Qed.

Lemma in_exact_matches T F S doc r :
  In r (exact_matches T F S doc) <->
  In r (descendants doc) /\ tag r = T
  /\ exists c, In c (children r) /\ tag c = F /\ In S (text_nodes c).
Proof.
  unfold exact_matches, field_equals, has_tag, text_is.
  rewrite filter_In, andb_true_iff, existsb_exists, String.eqb_eq.
  split.
  - intros (Hd & Ht & c & Hc & Hb). repeat split; auto.
    apply andb_true_iff in Hb as [Hf Hx]. apply String.eqb_eq in Hf.
    exists c. repeat split; auto.
    apply existsb_exists in Hx as (x & Hin & Hx).
    apply String.eqb_eq in Hx. now subst.
  - intros (Hd & Ht & c & Hc & Hf & Hx). repeat split; auto.
    exists c. split; [exact Hc|].
    rewrite Hf, String.eqb_refl. cbn [andb].
    apply existsb_exists. exists S. split; [exact Hx|].
    apply String.eqb_refl.
Qed.

(** The only text node of an element without children is its text. *)
Lemma text_nodes_leaf c S :
  children c = [] -> (In S (text_nodes c) <-> text c = Some S).
Proof.
  unfold text_nodes. intros ->. cbn. rewrite app_nil_r.
  destruct (text c) as [x|]; cbn.
  - split; [intros [->|[]]; reflexivity | intros H; left; congruence].
  - split; [intros [] | discriminate].
Qed.

(** C3, as the code has it.  For a record type and a field that are plain
    names and a search term of plain characters without a double quote,
    [_filter] on a cached document returns [objs] exactly when [objs] are
    the objects loaded, in document order, from the exact matches: the
    elements named [T] anywhere in the document that have a child named
    [F] one of whose text nodes (its leading text, or the text following
    one of its child elements) is [S], by equality of strings.  For a
    field without child elements that is: whose text is [S]. *)
Theorem filter_exact_match s doc T F S objs w' :
  _cache (self s) = Some doc ->
  is_name T = true -> is_name F = true ->
  no_dquote S = true -> plain_text S = true ->
  (_filter transport fromstring cls T S F s = (Ok objs, {| self := self s; world := w' |}) <->
   loads_in_order cls (_api_key (self s)) (exact_matches T F S doc)
                  (world s) objs w')
  /\ (forall r,
        In r (exact_matches T F S doc) <->
        In r (descendants doc) /\ tag r = T
        /\ exists c, In c (children r) /\ tag c = F /\ In S (text_nodes c))
  /\ (forall c, children c = [] ->
                (In S (text_nodes c) <-> text c = Some S)).
Proof.
  intros Hc HT HF HS _. split; [|split].
  - rewrite (filter_cached doc T S F s Hc). unfold filter_from.
    rewrite (xpath_filter_query doc T F S HT HF HS). apply load_each_ok.
  - intros r. apply in_exact_matches.
  - intros c. apply text_nodes_leaf.
Qed.

(** C10. The query is the template with the arguments pasted in.  A search
    term made of a quote-free part, a double quote, and nothing or a name
    makes [_filter] raise on any cached document; such a term exists for
    which a record with exactly that text is in the document. *)
Theorem filter_query_breaks_on_quote :
  (forall T F S,
      filter_query T F S
      = ("//" ++ T ++ "/" ++ F ++ "[text()=" ++ String dquote ""
              ++ S ++ String dquote "" ++ "]/..")%string)
  /\ (forall s doc T F S1 S2,
        _cache (self s) = Some doc ->
        is_name T = true -> is_name F = true ->
        no_dquote S1 = true -> S2 = "" \/ is_name S2 = true ->
        _filter transport fromstring cls T (S1 ++ String dquote S2) F s = (Raise XPathEvalError, s))
  /\ (exists doc T F S,
        no_dquote S = false
        /\ exact_matches T F S doc <> []
        /\ forall s, _cache (self s) = Some doc ->
                     _filter transport fromstring cls T S F s = (Raise XPathEvalError, s)).
Proof.
  assert (Hfam : forall s doc T F S1 S2,
        _cache (self s) = Some doc ->
        is_name T = true -> is_name F = true ->
        no_dquote S1 = true -> S2 = "" \/ is_name S2 = true ->
        _filter transport fromstring cls T (S1 ++ String dquote S2) F s = (Raise XPathEvalError, s)).
  { intros s doc T F S1 S2 Hc HT HF H1 H2.
    rewrite (filter_cached doc T _ F s Hc). unfold filter_from.
    now rewrite (xpath_filter_query_unfinished doc T F S1 S2 HT HF H1 H2). }
  split; [|split].
  - reflexivity.
  - exact Hfam.
  - exists Sample.quoted_listing, "user", "email", Sample.quoted.
    split; [reflexivity|]. split; [discriminate|].
    intros s Hc.
    apply (Hfam s Sample.quoted_listing "user" "email" "a" "b" Hc);
      try reflexivity.
    now right.
Qed.

End Lookups.



(** C5 on the sample: after a first reload the listing is read from the
    cache. *)
Lemma list_reloads_iff_refresh_or_empty_witness :
  let s1 := snd (OneLogin._reload (Sample.answer Sample.ok_200)
                                  Sample.fromstring None (Sample.state None)) in
  exists doc,
    OneLogin._cache (OneLogin.self s1) = Some doc
    /\ OneLogin._list (Sample.answer Sample.ok_200) Sample.fromstring
                      Sample.by_id "user" false s1
       = list_from Sample.by_id doc "user" s1
    /\ calls_of (snd (OneLogin._list (Sample.answer Sample.ok_200)
                         Sample.fromstring Sample.by_id "user" false s1))
       = calls_of s1
    /\ OneLogin.self (snd (OneLogin._list (Sample.answer Sample.ok_200)
                             Sample.fromstring Sample.by_id "user" false s1))
       = OneLogin.self s1.
Proof.
  cbv zeta.
  exact (proj2 (list_reloads_iff_refresh_or_empty
                  (Sample.answer Sample.ok_200) Sample.fromstring
                  Sample.by_id "user" false (Sample.state None))
               None (Sample.state None) _ eq_refl).
Defined.

(** C4 on the sample: with the listing cached, a filter leaves the client
    and its session untouched. *)
Lemma filter_reloads_only_when_cache_absent_witness :
  let s := Sample.state (Some Sample.listing) in
  OneLogin._filter (Sample.answer Sample.ok_200) Sample.fromstring
                   Sample.by_id "user" "a@x.com" "email" s
  = filter_from Sample.by_id Sample.listing "user" "a@x.com" "email" s
  /\ OneLogin.self (snd (OneLogin._filter (Sample.answer Sample.ok_200)
                            Sample.fromstring Sample.by_id
                            "user" "a@x.com" "email" s))
     = OneLogin.self s.
Proof.
  cbv zeta.
  exact (proj2 (filter_reloads_only_when_cache_absent
                  (Sample.answer Sample.ok_200) Sample.fromstring
                  Sample.by_id "user" "a@x.com" "email"
                  (Sample.state (Some Sample.listing)))
               Sample.listing eq_refl).
Defined.

(** C3 on the sample: of two addresses with a common prefix only the one
    equal to the search term is returned. *)
Lemma filter_exact_match_witness :
  OneLogin._filter (Sample.answer Sample.ok_200) Sample.fromstring
                   Sample.by_id "user" "a@x.com" "email"
                   (Sample.state (Some Sample.listing))
  = (Ok [Some "1"],
     OneLogin.mkState (Sample.client (Some Sample.listing)) 1).
Proof.
  apply (proj1 (filter_exact_match
                  (Sample.answer Sample.ok_200) Sample.fromstring
                  Sample.by_id (Sample.state (Some Sample.listing))
                  Sample.listing "user" "email" "a@x.com" [Some "1"] 1
                  eq_refl eq_refl eq_refl eq_refl eq_refl)).
  eapply Spec.loads_cons; [reflexivity | reflexivity |].
  apply Spec.loads_nil.
Defined.

(** C3 as stated fails: the listing holds a record whose address is the
    search term, character for character, and [_filter] raises instead of
    returning it, because the term contains a double quote. *)
Lemma filter_raises_on_quoted_search :
  let s := OneLogin.mkState (Sample.client (Some Sample.quoted_listing)) 0 in
  Spec.exact_matches "user" "email" Sample.quoted Sample.quoted_listing
  = [Sample.user "7" Sample.quoted]
  /\ OneLogin._filter (Sample.answer Sample.ok_200) Sample.fromstring
                      Sample.by_id "user" Sample.quoted "email" s
     = (Raise XPathEvalError, s).
Proof. cbv zeta. split; reflexivity. Qed.

(** C10 on the sample: the search term a, double quote, b. *)
Lemma filter_query_breaks_on_quote_witness :
  let s := OneLogin.mkState (Sample.client (Some Sample.quoted_listing)) 0 in
  OneLogin._filter (Sample.answer Sample.ok_200) Sample.fromstring
                   Sample.by_id "user" Sample.quoted "email" s
  = (Raise XPathEvalError, s).
Proof.
  cbv zeta.
  exact (proj1 (proj2 (filter_query_breaks_on_quote
                         (Sample.answer Sample.ok_200) Sample.fromstring
                         Sample.by_id))
               (OneLogin.mkState (Sample.client (Some Sample.quoted_listing)) 0)
               Sample.quoted_listing "user" "email" "a" "b"
               eq_refl eq_refl eq_refl eq_refl (or_intror eq_refl)).
Defined.

(** * Further checks on the sample *)

(** A search that matches nothing: [_find] returns the absent value. *)
Example find_absent_on_sample :
  fst (OneLogin._find (Sample.answer Sample.ok_200) Sample.fromstring
                      Sample.by_id "user" "nonexistent@x.com" "email"
                      (Sample.state (Some Sample.listing)))
  = Ok None.
Proof. reflexivity. Qed.

(** A search that matches: [_find] returns the first object. *)
Example find_present_on_sample :
  fst (OneLogin._find (Sample.answer Sample.ok_200) Sample.fromstring
                      Sample.by_id "user" "ab@x.com" "email"
                      (Sample.state (Some Sample.listing)))
  = Ok (Some (Some "2")).
Proof. reflexivity. Qed.

(** Two records with the same id give two objects. *)
Example list_keeps_duplicates :
  fst (OneLogin._list (Sample.answer Sample.ok_200) Sample.fromstring
                      Sample.by_id "user" false
                      (Sample.state
                         (Some (Lxml.Elem "users" None
                                  [Sample.user "1" "a@x.com";
                                   Sample.user "1" "a@x.com"]))))
  = Ok [Some "1"; Some "1"].
Proof. reflexivity. Qed.

(** With an empty cache [_list] fetches the listing first, and a second
    call reads the cache: one GET in all. *)
Example list_twice_fetches_once :
  let run := OneLogin._list (Sample.answer Sample.ok_200) Sample.fromstring
                            Sample.by_id "user" false in
  let s1 := snd (run (Sample.state None)) in
  let s2 := snd (run s1) in
  calls_of s1 = [Some (API_URL ++ "/users.xml")%string]
  /\ calls_of s2 = calls_of s1
  /\ fst (run s1) = Ok [Some "1"; Some "2"].
Proof. cbv zeta. repeat split. Qed.

(** * Beyond the lookups: invariants, failures and composition *)

Module More.
Import Lxml.

(** The record [r] cannot be loaded from world [w]: it has no [id] child,
    or [cls.load] raises on its id.  [w'] is the world left behind. *)
Inductive record_fails {W Obj : Type} (cls : APIClass W Obj) (key : string)
  : Element -> W -> exn -> W -> Prop :=
| fails_no_id r w e :
    objectify_getattr r "id" = Raise e ->
    record_fails cls key r w e w
| fails_load r id w e w' :
    objectify_getattr r "id" = Ok id ->
    load id key w = (Raise e, w') ->
    record_fails cls key r w e w'.

(** What every operation keeps of the client: the url, the key and the
    credentials of the session stay, a populated cache stays populated,
    and at most one GET is added to the log of the session. *)
Definition kept {W : Type} (s s' : OneLogin.State (W:=W)) : Prop :=
  OneLogin._url (OneLogin.self s') = OneLogin._url (OneLogin.self s)
  /\ OneLogin._api_key (OneLogin.self s') = OneLogin._api_key (OneLogin.self s)
  /\ Requests.auth (OneLogin._conn (OneLogin.self s'))
     = Requests.auth (OneLogin._conn (OneLogin.self s))
  /\ (OneLogin._cache (OneLogin.self s) <> None ->
      OneLogin._cache (OneLogin.self s') <> None)
  /\ exists l, calls_of s' = l ++ calls_of s /\ (List.length l <= 1)%nat.

(** A resource class that cannot load the record of id 2. *)
#[export] Instance picky : APIClass nat (option string) :=
  {| load := fun id _ w =>
       match text id with
       | Some "2"%string => (Raise (LoadError 2), S w)
       | other => (Ok other, S w)
       end |}.

(** A listing in which a record is nested inside another. *)
Definition nested_listing : Element :=
  Elem "users" None
    [Elem "user" None
       [Elem "id" (Some "1") []; Elem "email" (Some "a@x.com") [];
        Elem "user" None
          [Elem "id" (Some "9") []; Elem "email" (Some "a@x.com") []]]].

End More.

Section MoreReload.
Import Lxml OneLogin More.
Context {W : Type}.
Variable transport : string -> W -> Res Requests.Response * W.
Variable fromstring : string -> option Element.

Lemma conn_get_auth url (s : State (W:=W)) :
  Requests.auth (_conn (self (snd (conn_get transport url s))))
  = Requests.auth (_conn (self s)).
Proof.
  unfold conn_get, Requests.get. destruct url as [u|]; cbn; [|reflexivity].
  now destruct (transport u (world s)).
Qed.

Lemma kept_refl (s s' : State (W:=W)) : self s' = self s -> kept s s'.
Proof.
  intros H. unfold kept, calls_of. rewrite H. repeat split; auto.
  exists []. split; [reflexivity | cbn; lia].
Qed.

Lemma kept_self (s s1 s2 : State (W:=W)) :
  kept s s1 -> self s2 = self s1 -> kept s s2.
Proof. unfold kept, calls_of. intros H E. now rewrite E. Qed.

Lemma kept_reload url s : kept s (snd (_reload transport fromstring url s)).
Proof.
  pose proof (reload_calls transport fromstring url s) as Hcalls.
  rewrite reload_run in *.
  pose proof (conn_get_self transport (fetched url s) s) as (Hu & Hc & Hk & _).
  pose proof (conn_get_auth (fetched url s) s) as Ha.
  destruct (conn_get transport (fetched url s) s) as [[resp|e] s1];
    cbn [snd] in *.
  - destruct (fromstring (Requests.content resp)) as [doc|]; cbn [snd] in *.
    + unfold kept, calls_of. cbn. repeat split; auto; try discriminate.
      exists [fetched url s]. split; [exact Hcalls | cbn; lia].
    + unfold kept, calls_of. repeat split; auto; try congruence.
      exists [fetched url s]. split; [exact Hcalls | cbn; lia].
  - unfold kept, calls_of. repeat split; auto; try congruence.
    exists [fetched url s]. split; [exact Hcalls | cbn; lia].
Qed.

(** A reload that raises leaves the cache as it was. *)
Lemma reload_failure_keeps_cache url s e s1 :
  _reload transport fromstring url s = (Raise e, s1) ->
  _cache (self s1) = _cache (self s).
Proof.
  rewrite reload_run.
  pose proof (conn_get_self transport (fetched url s) s) as (_ & Hc & _).
  destruct (conn_get transport (fetched url s) s) as [[resp|e'] s'];
    cbn [snd] in Hc.
  - destruct (fromstring (Requests.content resp)); [discriminate|].
    intros H. inversion H; subst. exact Hc.
  - intros H. inversion H; subst. exact Hc.
Qed.

Lemma client_eq (a b : t) :
  _url a = _url b -> _cache a = _cache b -> _api_key a = _api_key b ->
  Requests.auth (_conn a) = Requests.auth (_conn b) ->
  Requests.calls (_conn a) = Requests.calls (_conn b) ->
  a = b.
Proof.
  destruct a as [ua ca ka [aa la]], b as [ub cb kb [ab lb]]; cbn.
  now intros -> -> -> -> ->.
Qed.

(** X1. Two reloads in a row, the second fetching a body that parses to
    [doc2]: afterwards the client is the one before the first reload with
    [doc2] as its cache and the two GETs logged.  Nothing of what the first
    reload had cached remains. *)
Theorem reload_twice_keeps_second u1 u2 s s1 resp s2 doc2 :
  _reload transport fromstring u1 s = (Ok tt, s1) ->
  conn_get transport (fetched u2 s1) s1 = (Ok resp, s2) ->
  fromstring (Requests.content resp) = Some doc2 ->
  fst (_reload transport fromstring u2 s1) = Ok tt
  /\ self (snd (_reload transport fromstring u2 s1))
     = {| _url := _url (self s);
          _cache := Some doc2;
          _api_key := _api_key (self s);
          _conn := {| Requests.auth := Requests.auth (_conn (self s));
                      Requests.calls :=
                        fetched u2 s1 :: fetched u1 s
                                      :: Requests.calls (_conn (self s)) |} |}.
Proof.
  intros H1 Hget Hdoc.
  pose proof (kept_reload u1 s) as (Hu & Hk & Ha & _).
  pose proof (reload_calls transport fromstring u1 s) as Hl.
  rewrite H1 in Hu, Hk, Ha, Hl. cbn [snd] in Hu, Hk, Ha, Hl.
  pose proof (conn_get_self transport (fetched u2 s1) s1) as (Hu2 & _ & Hk2 & Hl2).
  pose proof (conn_get_auth (fetched u2 s1) s1) as Ha2.
  rewrite reload_run, Hget, Hdoc. rewrite Hget in Hu2, Hk2, Hl2, Ha2.
  cbn [snd] in Hu2, Hk2, Hl2, Ha2.
  split; [reflexivity|]. apply client_eq; cbn; congruence.
Qed.

(** X2. Without an argument [_reload] fetches [self._url]: the call
    [_reload()] of [_filter] and the call [_reload(self._url)] of [_list]
    do the same. *)
Theorem reload_default_is_own_url (s : State (W:=W)) :
  _reload transport fromstring None s
  = _reload transport fromstring (_url (self s)) s.
Proof.
  rewrite !reload_run. unfold fetched. now destruct (_url (self s)).
Qed.

(** X3. A client whose class sets no [_url]: a reload that is given no
    url, which is how [_list] and [_filter] reload, raises inside requests
    before anything is sent; the cache is left alone and the world is not
    touched, and the attempt is still a call on the session.  A reload that
    is given a url makes its GET of that url as on any client. *)
Theorem reload_without_url_raises (s : State (W:=W)) :
  _url (self s) = None ->
  (forall url, url = None \/ url = _url (self s) ->
     let r := _reload transport fromstring url s in
     fst r = Raise RequestException
     /\ world (snd r) = world s
     /\ _cache (self (snd r)) = _cache (self s)
     /\ calls_of (snd r) = None :: calls_of s)
  /\ (forall u,
        let r := _reload transport fromstring (Some u) s in
        calls_of (snd r) = Some u :: calls_of s
        /\ (fst r = Raise RequestException ->
            fst (transport u (world s)) = Raise RequestException)).
Proof.
  intros Hu. split.
  - intros url Hurl. assert (url = None) as ->
      by (destruct Hurl as [->| ->]; [reflexivity | exact Hu]).
    cbv zeta. unfold calls_of.
    rewrite reload_run. unfold fetched, conn_get, Requests.get.
    rewrite Hu. cbn. auto.
  - intros u. cbv zeta. split.
    + unfold calls_of. now rewrite reload_calls.
    + rewrite reload_run. unfold fetched, conn_get, Requests.get.
      destruct (transport u (world s)) as [[resp|e] w']; cbn.
      * destruct (fromstring (Requests.content resp)); cbn; discriminate.
      * intros H. now inversion H.
Qed.

End MoreReload.

Section MoreLookups.
Import Lxml Spec LxmlFacts XPathFacts ClientFacts OneLogin More.
Context {W : Type}.
Variable transport : string -> W -> Res Requests.Response * W.
Variable fromstring : string -> option Element.
Context {Obj : Type} (cls : APIClass W Obj).

Lemma state_eta (s : State (W:=W)) : {| self := self s; world := world s |} = s.
Proof. now destruct s. Qed.

(** Loading stops at a record that fails. *)
Lemma load_each_cons_fail r post (s : State (W:=W)) e w' :
  record_fails cls (_api_key (self s)) r (world s) e w' ->
  load_each cls (r :: post) s = (Raise e, {| self := self s; world := w' |}).
Proof.
  intros H. unfold load_each. cbn [mapM]. unfold bind at 1.
  unfold bind at 1, lift at 1.
  inversion H as [r0 w0 e0 Hid | r0 id w0 e0 w0' Hid Hl]; subst; rewrite Hid.
  - now rewrite state_eta.
  - unfold bind at 1, get_self at 1, call_load at 1. now rewrite Hl.
Qed.

(** Loading a list in two parts. *)
Lemma load_each_app pre : forall post (s : State (W:=W)) objs w1,
  loads_in_order cls (_api_key (self s)) pre (world s) objs w1 ->
  load_each cls (pre ++ post) s =
  match load_each cls post {| self := self s; world := w1 |} with
  | (Ok os, s') => (Ok (objs ++ os), s')
  | (Raise e, s') => (Raise e, s')
  end.
Proof.
  induction pre as [|r pre' IH]; intros post s objs w1 H.
  - inversion H; subst. rewrite state_eta. cbn [app].
    now destruct (load_each cls post s) as [[os|e] s'].
  - inversion H as [|r0 rs id o os w wa w2 Hid Hl Hrest]; subst.
    specialize (IH post {| self := self s; world := wa |} os w1 Hrest).
    cbn [self world] in IH.
    unfold load_each in *. cbn [app mapM]. unfold bind at 1.
    unfold bind at 1, lift at 1. rewrite Hid.
    unfold bind at 1, get_self at 1, call_load at 1. rewrite Hl.
    unfold bind at 1. rewrite IH.
    destruct (mapM _ post _) as [[os'|e] s']; reflexivity.
Qed.

Lemma load_each_fails_at pre r post (s : State (W:=W)) objs w1 e w2 :
  loads_in_order cls (_api_key (self s)) pre (world s) objs w1 ->
  record_fails cls (_api_key (self s)) r w1 e w2 ->
  load_each cls (pre ++ r :: post) s
  = (Raise e, {| self := self s; world := w2 |}).
Proof.
  intros Hpre Hr. rewrite (load_each_app pre (r :: post) s objs w1 Hpre).
  now rewrite (load_each_cons_fail r post {| self := self s; world := w1 |}
                 e w2 Hr).
Qed.

Lemma loads_in_order_nil_inv key els w w' :
  loads_in_order cls key els w [] w' -> els = [] /\ w' = w.
Proof. intros H. inversion H; subst. auto. Qed.

Lemma find_state T S F (s : State (W:=W)) :
  snd (_find transport fromstring cls T S F s)
  = snd (_filter transport fromstring cls T S F s).
Proof.
  unfold _find, bind.
  destruct (_filter transport fromstring cls T S F s) as [[[|o os]|e] s'];
    reflexivity.
Qed.

Lemma self_in_descendants e : In e (descendants e).
Proof. destruct e. now left. Qed.

Lemma child_in_descendants e c : In c (children e) -> In c (descendants e).
Proof.
  destruct e as [t x cs tl]. cbn. intros H. right.
  apply in_flat_map. exists c. split; [exact H | apply self_in_descendants].
Qed.

(** X4. A listing without a record of type [T], for [T] a child name:
    [_list] raises AttributeError instead of returning an empty list, from
    the cache and after a reload alike, and loads nothing. *)
Theorem list_raises_without_records doc T refresh s :
  is_child_name T = true ->
  siblings doc T = [] ->
  (_cache (self s) = Some doc ->
   _list transport fromstring cls T false s = (Raise AttributeError, s))
  /\ (forall s1,
        refresh || is_none (_cache (self s)) = true ->
        _reload transport fromstring (_url (self s)) s = (Ok tt, s1) ->
        _cache (self s1) = Some doc ->
        _list transport fromstring cls T refresh s
        = (Raise AttributeError, s1)).
Proof.
  intros HT Hs. split.
  - intros Hc. rewrite (list_cached transport fromstring cls doc T s Hc).
    unfold list_from. now rewrite (getattr_no_sibling doc T HT Hs).
  - intros s1 Hcond Hr Hc.
    rewrite (list_reloading transport fromstring cls T refresh s Hcond).
    rewrite Hr, Hc. unfold list_from.
    now rewrite (getattr_no_sibling doc T HT Hs).
Qed.

(** X5. For [T] a child name, [_list] stops at the first record that
    cannot be loaded, because it has no [id] child or because [cls.load]
    raises: the exception reaches the caller, the objects loaded so far are
    dropped, the records after it are not loaded, and the client is
    unchanged. *)
Theorem list_stops_at_first_failure s doc T pre r post objs w1 e w2 :
  _cache (self s) = Some doc ->
  is_child_name T = true ->
  siblings doc T = pre ++ r :: post ->
  loads_in_order cls (_api_key (self s)) pre (world s) objs w1 ->
  record_fails cls (_api_key (self s)) r w1 e w2 ->
  _list transport fromstring cls T false s
  = (Raise e, {| self := self s; world := w2 |}).
Proof.
  intros Hc HT Hs Hpre Hr.
  rewrite (list_cached transport fromstring cls doc T s Hc). unfold list_from.
  assert (Hhd : exists r0 rs, siblings doc T = r0 :: rs).
  { rewrite Hs. destruct pre as [|p pre']; cbn; eauto. }
  destruct Hhd as (r0 & rs & Hhd).
  destruct (getattr_first_sibling doc T r0 rs HT Hhd) as [-> Ht].
  rewrite Ht, Hs. now apply (load_each_fails_at pre r post s objs w1).
Qed.

(** X6. For name-like arguments and a search term of plain characters
    without a double quote, [_find] on a cached document returns the absent
    value exactly when no record matches, and then it loads nothing and
    changes nothing. *)
Theorem find_none_iff_no_match s doc T F S s' :
  _cache (self s) = Some doc ->
  is_name T = true -> is_name F = true ->
  no_dquote S = true -> plain_text S = true ->
  (_find transport fromstring cls T S F s = (Ok None, s') <->
   exact_matches T F S doc = [] /\ s' = s).
Proof.
  intros Hc HT HF HS _. unfold _find, bind.
  rewrite (filter_cached transport fromstring cls doc T S F s Hc).
  unfold filter_from. rewrite (xpath_filter_query doc T F S HT HF HS).
  pose proof (load_each_self cls (exact_matches T F S doc) s) as Hself.
  pose proof (load_each_ok cls (exact_matches T F S doc) s) as Hok.
  destruct (load_each cls (exact_matches T F S doc) s) as [[[|o os]|e] s1];
    cbn [snd] in Hself.
  - cbn. unfold ret. split.
    + intros H. inversion H; subst s'.
      specialize (Hok [] (world s1)). rewrite <- Hself, state_eta in Hok.
      destruct (loads_in_order_nil_inv _ _ _ _ (proj1 Hok eq_refl))
        as [Hm Hw].
      split; [exact Hm|].
      rewrite <- (state_eta s1), <- (state_eta s). now rewrite Hself, Hw.
    + intros [Hm ->]. f_equal.
      specialize (Hok [] (world s1)). rewrite <- Hself, state_eta in Hok.
      destruct (loads_in_order_nil_inv _ _ _ _ (proj1 Hok eq_refl))
        as [_ Hw].
      rewrite <- (state_eta s1), <- (state_eta s). now rewrite Hself, Hw.
  - cbn. unfold ret. split; [discriminate|].
    intros [Hm _]. rewrite Hm in Hok.
    specialize (Hok (o :: os) (world s1)).
    rewrite <- Hself, state_eta in Hok.
    pose proof (proj1 Hok eq_refl) as Hl. inversion Hl.
  - split; [discriminate|].
    intros [Hm _]. rewrite Hm in Hok. cbn in Hok.
    specialize (Hok [] (world s)). rewrite state_eta in Hok.
    pose proof (proj2 Hok (loads_nil cls _ _)) as Hl. discriminate Hl.
Qed.

(** X7. Under the same conditions [_find] returns an object exactly when
    every match loads, not only the first: it is the first of the objects
    loaded, in document order, from all the matches, and the world has
    gone through all these loads. *)
Theorem find_some_iff_all_matches_load s doc T F S o w' :
  _cache (self s) = Some doc ->
  is_name T = true -> is_name F = true -> no_dquote S = true ->
  (_find transport fromstring cls T S F s
   = (Ok (Some o), {| self := self s; world := w' |}) <->
   exists os, loads_in_order cls (_api_key (self s)) (exact_matches T F S doc)
                             (world s) (o :: os) w').
Proof.
  intros Hc HT HF HS. unfold _find, bind.
  rewrite (filter_cached transport fromstring cls doc T S F s Hc).
  unfold filter_from. rewrite (xpath_filter_query doc T F S HT HF HS).
  pose proof (load_each_self cls (exact_matches T F S doc) s) as Hself.
  pose proof (load_each_ok cls (exact_matches T F S doc) s) as Hok.
  destruct (load_each cls (exact_matches T F S doc) s) as [[[|o1 os1]|e] s1];
    cbn [snd] in Hself.
  - cbn. unfold ret. split; [discriminate|].
    intros [os Hl]. apply Hok in Hl. discriminate Hl.
  - cbn. unfold ret. split.
    + intros H. inversion H; subst. exists os1. apply Hok.
      now rewrite <- Hself, state_eta.
    + intros [os Hl]. apply Hok in Hl. inversion Hl; subst. reflexivity.
  - split; [discriminate|].
    intros [os Hl]. apply Hok in Hl. discriminate Hl.
Qed.

(** X8. [_find] raises when any match cannot be loaded, also one after the
    first: the object of the first match is then lost. *)
Theorem find_fails_when_a_match_fails s doc T F S pre r post objs w1 e w2 :
  _cache (self s) = Some doc ->
  is_name T = true -> is_name F = true -> no_dquote S = true ->
  exact_matches T F S doc = pre ++ r :: post ->
  loads_in_order cls (_api_key (self s)) pre (world s) objs w1 ->
  record_fails cls (_api_key (self s)) r w1 e w2 ->
  _find transport fromstring cls T S F s
  = (Raise e, {| self := self s; world := w2 |}).
Proof.
  intros Hc HT HF HS Hm Hpre Hr. unfold _find, bind.
  rewrite (filter_cached transport fromstring cls doc T S F s Hc).
  unfold filter_from. rewrite (xpath_filter_query doc T F S HT HF HS), Hm.
  now rewrite (load_each_fails_at pre r post s objs w1 e w2 Hpre Hr).
Qed.

End MoreLookups.

Section MoreComposition.
Import Lxml Spec LxmlFacts XPathFacts ClientFacts OneLogin More.
Context {W : Type}.
Variable transport : string -> W -> Res Requests.Response * W.
Variable fromstring : string -> option Element.
Context {Obj : Type} (cls : APIClass W Obj).

Lemma kept_list T refresh (s : State (W:=W)) :
  kept s (snd (_list transport fromstring cls T refresh s)).
Proof.
  destruct (refresh || is_none (_cache (self s))) eqn:E.
  - rewrite (list_reloading transport fromstring cls T refresh s E).
    pose proof (kept_reload transport fromstring (_url (self s)) s) as Hk.
    destruct (_reload transport fromstring (_url (self s)) s)
      as [[[]|e] s1]; cbn [snd] in *; [|exact Hk].
    destruct (_cache (self s1)) as [doc|]; [|exact Hk].
    apply (kept_self s s1); [exact Hk | apply list_from_self].
  - apply orb_false_iff in E as [-> E].
    destruct (_cache (self s)) as [doc|] eqn:Hc; [|discriminate].
    rewrite (list_cached transport fromstring cls doc T s Hc).
    apply kept_refl, list_from_self.
Qed.

Lemma kept_filter T S F (s : State (W:=W)) :
  kept s (snd (_filter transport fromstring cls T S F s)).
Proof.
  destruct (_cache (self s)) as [doc|] eqn:Hc.
  - rewrite (filter_cached transport fromstring cls doc T S F s Hc).
    apply kept_refl, filter_from_self.
  - rewrite (filter_reloading transport fromstring cls T S F s Hc).
    pose proof (kept_reload transport fromstring None s) as Hk.
    destruct (_reload transport fromstring None s)
      as [[[]|e] s1]; cbn [snd] in *; [|exact Hk].
    destruct (_cache (self s1)) as [doc|]; [|exact Hk].
    apply (kept_self s s1); [exact Hk | apply filter_from_self].
Qed.

(** X9. Whatever their outcome, [_reload], [_list], [_filter] and [_find]
    keep the url and the key of the client and the credentials of its
    session, never empty a populated cache, and add at most one GET to the
    log of the session. *)
Theorem operations_keep_client url T S F refresh (s : State (W:=W)) :
  kept s (snd (_reload transport fromstring url s))
  /\ kept s (snd (_list transport fromstring cls T refresh s))
  /\ kept s (snd (_filter transport fromstring cls T S F s))
  /\ kept s (snd (_find transport fromstring cls T S F s)).
Proof.
  repeat split; try apply kept_reload; try apply kept_list;
    try apply kept_filter.
  all: rewrite find_state; apply kept_filter.
Qed.

(** X10. When the reload that [_list], [_filter] or [_find] starts with
    raises, the lookup raises the same exception in the same state: no
    record is loaded, and the cache is as it was before the call. *)
Theorem lookups_propagate_reload_failure T S F refresh s e s1 :
  (refresh || is_none (_cache (self s)) = true ->
   _reload transport fromstring (_url (self s)) s = (Raise e, s1) ->
   _list transport fromstring cls T refresh s = (Raise e, s1)
   /\ _cache (self s1) = _cache (self s))
  /\ (_cache (self s) = None ->
      _reload transport fromstring None s = (Raise e, s1) ->
      _filter transport fromstring cls T S F s = (Raise e, s1)
      /\ _find transport fromstring cls T S F s = (Raise e, s1)
      /\ _cache (self s1) = None).
Proof.
  split.
  - intros Hcond Hr.
    rewrite (list_reloading transport fromstring cls T refresh s Hcond), Hr.
    split; [reflexivity|].
    exact (reload_failure_keeps_cache transport fromstring _ s e s1 Hr).
  - intros Hc Hr. unfold _find, bind.
    rewrite (filter_reloading transport fromstring cls T S F s Hc), Hr.
    repeat split.
    rewrite (reload_failure_keeps_cache transport fromstring _ s e s1 Hr).
    exact Hc.
Qed.

(** X11. When [_list] reloads (asked to refresh, or with an empty cache)
    and the reload succeeds, the result is read from the document just
    fetched: for [T] a child name, the objects are those loaded from its
    records, whatever the cache held before. *)
Theorem list_refresh_reads_new_document T refresh s s1 doc r rs objs w' :
  refresh || is_none (_cache (self s)) = true ->
  _reload transport fromstring (_url (self s)) s = (Ok tt, s1) ->
  _cache (self s1) = Some doc ->
  is_child_name T = true ->
  siblings doc T = r :: rs ->
  (_list transport fromstring cls T refresh s
   = (Ok objs, {| self := self s1; world := w' |}) <->
   loads_in_order cls (_api_key (self s1)) (r :: rs) (world s1) objs w').
Proof.
  intros Hcond Hr Hc HT Hs.
  rewrite (list_reloading transport fromstring cls T refresh s Hcond), Hr, Hc.
  unfold list_from.
  destruct (getattr_first_sibling doc T r rs HT Hs) as [-> Ht].
  rewrite Ht, Hs. apply load_each_ok.
Qed.

(** X12. [_filter] looks at least where [_list] looks: a record that
    [_list] enumerates (a child of the root tagged [T]) and that has a
    field [F] of text [S] is among the records the query of [_filter]
    selects. *)
Theorem listed_matches_are_selected doc T F S r :
  is_name T = true -> is_name F = true -> no_dquote S = true ->
  In r (siblings doc T) ->
  field_equals F S r = true ->
  exists results,
    xpath doc (filter_query T F S) = Ok results /\ In r results.
Proof.
  intros HT HF HS Hin Hf. exists (exact_matches T F S doc).
  split; [exact (xpath_filter_query doc T F S HT HF HS)|].
  unfold siblings in Hin. apply filter_In in Hin as [Hc Ht].
  unfold exact_matches. apply filter_In. split.
  - now apply child_in_descendants.
  - now rewrite Ht, Hf.
Qed.

(** X13. A client fresh from the constructor has no cache: its first
    [_list] or [_filter] makes exactly one GET, of the url of its class,
    with the session carrying the key paired with the placeholder x. *)
Theorem first_lookup_fetches_once class_url key T S F refresh (w : W) :
  let s := {| self := __init__ class_url key; world := w |} in
  calls_of (snd (_list transport fromstring cls T refresh s)) = [class_url]
  /\ calls_of (snd (_filter transport fromstring cls T S F s)) = [class_url]
  /\ Requests.auth (_conn (self (snd (_list transport fromstring cls
                                         T refresh s)))) = (key, "x")
  /\ Requests.auth (_conn (self (snd (_filter transport fromstring cls
                                         T S F s)))) = (key, "x").
Proof.
  cbv zeta. set (s := {| self := __init__ class_url key; world := w |}).
  assert (Hc : _cache (self s) = None) by reflexivity.
  assert (Hcond : refresh || is_none (_cache (self s)) = true)
    by (rewrite Hc; apply orb_true_r).
  pose proof (kept_list T refresh s) as (_ & _ & Hal & _).
  pose proof (kept_filter T S F s) as (_ & _ & Haf & _).
  repeat split; try exact Hal; try exact Haf.
  - unfold calls_of.
    rewrite (list_reloading transport fromstring cls T refresh s Hcond).
    pose proof (reload_calls transport fromstring (_url (self s)) s) as Hl.
    destruct (_reload transport fromstring (_url (self s)) s)
      as [[[]|e] s1]; cbn [snd] in Hl.
    + destruct (_cache (self s1)); [rewrite list_from_self|]; cbn [snd];
        rewrite Hl; unfold fetched; cbn; now destruct class_url.
    + cbn [snd]. rewrite Hl. unfold fetched. cbn. now destruct class_url.
  - unfold calls_of.
    rewrite (filter_reloading transport fromstring cls T S F s Hc).
    pose proof (reload_calls transport fromstring None s) as Hl.
    destruct (_reload transport fromstring None s)
      as [[[]|e] s1]; cbn [snd] in Hl.
    + destruct (_cache (self s1)); [rewrite filter_from_self|]; cbn [snd];
        rewrite Hl; reflexivity.
    + cbn [snd]. rewrite Hl. reflexivity.
Qed.

End MoreComposition.

Section MoreObjects.
Import Lxml.

(** X14. On a constructed object the field [id] reads back the identity
    fixed at construction. *)
Theorem getattr_id_is_identity el obj :
  APIObject.__init__ el = Ok obj ->
  APIObject.__getattr__ obj "id" = Ok (APIObject._id obj).
Proof.
  intros H. apply init_ok in H as (f & Hf & ->).
  unfold APIObject.__getattr__, APIObject._find.
  cbn [APIObject.__details APIObject._id]. now rewrite find_id, Hf.
Qed.

(** X15. The absent value does not tell a missing field from an empty
    one: for a field name, [__getattr__] returns None exactly when the node
    has no child of that name or the first such child has no text. *)
Theorem getattr_none_iff el obj key :
  APIObject.__init__ el = Ok obj ->
  is_name key = true ->
  (APIObject.__getattr__ obj key = Ok None <->
   first_child key el = None
   \/ exists c, first_child key el = Some c /\ text c = None).
Proof.
  intros H Hkey. apply init_ok in H as (f & _ & ->).
  unfold APIObject.__getattr__, APIObject._find, find.
  cbn [APIObject.__details]. rewrite Hkey.
  destruct (first_child key el) as [c|].
  - split.
    + intros E. right. exists c. split; [reflexivity|]. now inversion E.
    + intros [E | (c' & E & Ht)]; [discriminate|].
      inversion E; subst. now rewrite Ht.
  - split; auto.
Qed.

End MoreObjects.

(** * The further properties on sample data *)

Module MoreSample.
Import Lxml.

(** A transport that answers the first GET with the error document and
    the later ones with the listing. *)
Definition by_turn (url : string) (w : nat) : Res Requests.Response * nat :=
  match w with
  | 0 => (Sample.error_500, 1)
  | S _ => (Sample.ok_200, S w)
  end.

(** A transport that cannot reach the server. *)
Definition unreachable (url : string) (w : nat)
  : Res Requests.Response * nat := (Raise RequestException, S w).

(** Two records with the same address. *)
Definition twins : Element :=
  Elem "users" None [Sample.user "1" "a@x.com"; Sample.user "2" "a@x.com"].

Definition empty_listing : Element := Elem "users" None [].

End MoreSample.

Lemma reload_twice_keeps_second_witness :
  let s1 := snd (OneLogin._reload MoreSample.by_turn Sample.fromstring None
                                  (Sample.state None)) in
  OneLogin._cache (OneLogin.self s1) = Some Sample.error_doc
  /\ OneLogin._cache
       (OneLogin.self (snd (OneLogin._reload MoreSample.by_turn
                              Sample.fromstring None s1)))
     = Some Sample.listing.
Proof.
  cbv zeta. split; [reflexivity|].
  rewrite (proj2 (reload_twice_keeps_second
                    MoreSample.by_turn Sample.fromstring None None
                    (Sample.state None)
                    (snd (OneLogin._reload MoreSample.by_turn
                            Sample.fromstring None (Sample.state None)))
                    (Requests.mkResponse 200 Sample.listing_xml)
                    (snd (OneLogin.conn_get MoreSample.by_turn
                            (Sample.client None).(OneLogin._url)
                            (snd (OneLogin._reload MoreSample.by_turn
                                    Sample.fromstring None
                                    (Sample.state None)))))
                    Sample.listing eq_refl eq_refl eq_refl)).
  reflexivity.
Defined.

Lemma reload_without_url_raises_witness :
  let s := OneLogin.mkState (OneLogin.__init__ None "key") 0 in
  fst (OneLogin._reload (Sample.answer Sample.ok_200) Sample.fromstring
                        None s)
  = Raise RequestException.
Proof.
  cbv zeta.
  exact (proj1 (proj1 (reload_without_url_raises
                         (Sample.answer Sample.ok_200) Sample.fromstring
                         (OneLogin.mkState (OneLogin.__init__ None "key") 0)
                         eq_refl)
                      None (or_introl eq_refl))).
Defined.

Lemma list_raises_without_records_witness :
  let s := Sample.state (Some MoreSample.empty_listing) in
  OneLogin._list (Sample.answer Sample.ok_200) Sample.fromstring
                 Sample.by_id "user" false s
  = (Raise AttributeError, s).
Proof.
  cbv zeta.
  exact (proj1 (list_raises_without_records
                  (Sample.answer Sample.ok_200) Sample.fromstring
                  Sample.by_id MoreSample.empty_listing "user" false
                  (Sample.state (Some MoreSample.empty_listing))
                  eq_refl eq_refl)
               eq_refl).
Defined.

Lemma list_stops_at_first_failure_witness :
  OneLogin._list (Sample.answer Sample.ok_200) Sample.fromstring
                 More.picky "user" false (Sample.state (Some Sample.listing))
  = (Raise (LoadError 2),
     OneLogin.mkState (Sample.client (Some Sample.listing)) 2).
Proof.
  apply (list_stops_at_first_failure
           (Sample.answer Sample.ok_200) Sample.fromstring More.picky
           (Sample.state (Some Sample.listing)) Sample.listing "user"
           [Sample.user "1" "a@x.com"] (Sample.user "2" "ab@x.com") []
           [Some "1"] 1 (LoadError 2) 2 eq_refl eq_refl eq_refl).
  - eapply Spec.loads_cons; [reflexivity | reflexivity | apply Spec.loads_nil].
  - eapply More.fails_load; reflexivity.
Defined.

Lemma find_none_iff_no_match_witness :
  let s := Sample.state (Some Sample.listing) in
  OneLogin._find (Sample.answer Sample.ok_200) Sample.fromstring
                 Sample.by_id "user" "nonexistent@x.com" "email" s
  = (Ok None, s).
Proof.
  cbv zeta.
  apply (proj2 (find_none_iff_no_match
                  (Sample.answer Sample.ok_200) Sample.fromstring
                  Sample.by_id (Sample.state (Some Sample.listing))
                  Sample.listing "user" "email" "nonexistent@x.com"
                  (Sample.state (Some Sample.listing))
                  eq_refl eq_refl eq_refl eq_refl eq_refl)).
  split; reflexivity.
Defined.

Lemma find_some_iff_all_matches_load_witness :
  OneLogin._find (Sample.answer Sample.ok_200) Sample.fromstring
                 Sample.by_id "user" "a@x.com" "email"
                 (Sample.state (Some MoreSample.twins))
  = (Ok (Some (Some "1")),
     OneLogin.mkState (Sample.client (Some MoreSample.twins)) 2).
Proof.
  apply (proj2 (find_some_iff_all_matches_load
                  (Sample.answer Sample.ok_200) Sample.fromstring
                  Sample.by_id (Sample.state (Some MoreSample.twins))
                  MoreSample.twins "user" "email" "a@x.com" (Some "1") 2
                  eq_refl eq_refl eq_refl eq_refl)).
  exists [Some "2"].
  eapply Spec.loads_cons; [reflexivity | reflexivity |].
  eapply Spec.loads_cons; [reflexivity | reflexivity | apply Spec.loads_nil].
Defined.

Lemma find_fails_when_a_match_fails_witness :
  OneLogin._find (Sample.answer Sample.ok_200) Sample.fromstring
                 More.picky "user" "a@x.com" "email"
                 (Sample.state (Some MoreSample.twins))
  = (Raise (LoadError 2),
     OneLogin.mkState (Sample.client (Some MoreSample.twins)) 2).
Proof.
  apply (find_fails_when_a_match_fails
           (Sample.answer Sample.ok_200) Sample.fromstring More.picky
           (Sample.state (Some MoreSample.twins)) MoreSample.twins
           "user" "email" "a@x.com"
           [Sample.user "1" "a@x.com"] (Sample.user "2" "a@x.com") []
           [Some "1"] 1 (LoadError 2) 2
           eq_refl eq_refl eq_refl eq_refl eq_refl).
  - eapply Spec.loads_cons; [reflexivity | reflexivity | apply Spec.loads_nil].
  - eapply More.fails_load; reflexivity.
Defined.

Lemma lookups_propagate_reload_failure_witness :
  let s := Sample.state None in
  OneLogin._filter MoreSample.unreachable Sample.fromstring Sample.by_id
                   "user" "a@x.com" "email" s
  = (Raise RequestException,
     snd (OneLogin._reload MoreSample.unreachable Sample.fromstring None s)).
Proof.
  cbv zeta.
  exact (proj1 (proj2 (lookups_propagate_reload_failure
                         MoreSample.unreachable Sample.fromstring
                         Sample.by_id "user" "a@x.com" "email" false
                         (Sample.state None) RequestException _)
                      eq_refl eq_refl)).
Defined.

Lemma list_refresh_reads_new_document_witness :
  let s := Sample.state (Some Sample.error_doc) in
  let s1 := snd (OneLogin._reload (Sample.answer Sample.ok_200)
                                  Sample.fromstring None s) in
  OneLogin._list (Sample.answer Sample.ok_200) Sample.fromstring
                 Sample.by_id "user" true s
  = (Ok [Some "1"; Some "2"], OneLogin.mkState (OneLogin.self s1) 3).
Proof.
  cbv zeta.
  apply (proj2 (list_refresh_reads_new_document
                  (Sample.answer Sample.ok_200) Sample.fromstring
                  Sample.by_id "user" true
                  (Sample.state (Some Sample.error_doc)) _ Sample.listing
                  (Sample.user "1" "a@x.com") [Sample.user "2" "ab@x.com"]
                  [Some "1"; Some "2"] 3
                  eq_refl eq_refl eq_refl eq_refl eq_refl)).
  eapply Spec.loads_cons; [reflexivity | reflexivity |].
  eapply Spec.loads_cons; [reflexivity | reflexivity | apply Spec.loads_nil].
Defined.

Lemma listed_matches_are_selected_witness :
  exists results,
    Lxml.xpath Sample.listing
               (OneLogin.filter_query "user" "email" "a@x.com") = Ok results
    /\ In (Sample.user "1" "a@x.com") results.
Proof.
  apply (listed_matches_are_selected
           Sample.listing "user" "email" "a@x.com"
           (Sample.user "1" "a@x.com") eq_refl eq_refl eq_refl).
  - left. reflexivity.
  - reflexivity.
Defined.

Lemma getattr_id_is_identity_witness :
  APIObject.__getattr__
    (APIObject.mk (Sample.user "1" "a@x.com") (Some "1")) "id"
  = Ok (Some "1").
Proof.
  exact (getattr_id_is_identity (Sample.user "1" "a@x.com") _ eq_refl).
Defined.

Lemma getattr_none_iff_witness :
  APIObject.__getattr__
    (APIObject.mk (Lxml.Elem "user" None
                     [Lxml.Elem "id" (Some "1") []; Lxml.Elem "phone" None []])
                  (Some "1")) "phone"
  = Ok None.
Proof.
  apply (proj2 (getattr_none_iff
                  (Lxml.Elem "user" None
                     [Lxml.Elem "id" (Some "1") [];
                      Lxml.Elem "phone" None []])
                  _ "phone" eq_refl eq_refl)).
  right. exists (Lxml.Elem "phone" None []). split; reflexivity.
Defined.

(** The query of [_filter] also selects a record nested in another, which
    [_list] does not enumerate. *)
Example filter_selects_nested_record :
  Lxml.siblings More.nested_listing "user"
  = [Lxml.Elem "user" None
       [Lxml.Elem "id" (Some "1") []; Lxml.Elem "email" (Some "a@x.com") [];
        Lxml.Elem "user" None
          [Lxml.Elem "id" (Some "9") [];
           Lxml.Elem "email" (Some "a@x.com") []]]]
  /\ option_map (@List.length _)
       (match Lxml.xpath More.nested_listing
                (OneLogin.filter_query "user" "email" "a@x.com") with
        | Ok l => Some l | Raise _ => None end)
     = Some 2.
Proof. split; reflexivity. Qed.

(** A field with mixed content: the text that follows a child element is a
    text node of the field, and the query matches on it. *)
Example filter_matches_tail_text :
  let email := Lxml.Node "email" (Some "b")
                 [Lxml.Node "x" None [] (Some "a")] None in
  let doc := Lxml.Elem "users" None
               [Lxml.Elem "user" None [Lxml.Elem "id" (Some "1") []; email]] in
  Lxml.text_nodes email = ["b"; "a"]
  /\ fst (OneLogin._filter (Sample.answer Sample.ok_200) Sample.fromstring
                           Sample.by_id "user" "a" "email"
                           (Sample.state (Some doc)))
     = Ok [Some "1"].
Proof. cbv zeta. split; reflexivity. Qed.

(** The name of an attribute of the element class is not a child name. *)
Example text_is_not_a_child_name :
  Lxml.is_child_name "text" = false /\ Lxml.is_child_name "user" = true
  /\ Lxml.is_child_name "id" = true.
Proof. repeat split. Qed.
